(** * Golf-club catalogue scraper: a shallow embedding and its properties

    The development follows the two front-ends of the repository,
    [Snowpark_Webscrape.py] (a script built around the class
    [GolfClubScraper]) and [Streamlit_Webscrape.py] (a dashboard made of
    module-level functions).  Both share the same pipeline:

    - [make_request]: HTTP GET with retries and sleeps;
    - [parse_product]: one listing element of the parsed page to a dict;
    - [scrape_products]: the pagination loop, the data frame, the identity
      column and the ordering;
    - [clean_price], [create_driver_id]: price parsing and the MD5 identity;
    - [upload_to_snowflake]: the MERGE statement and the two counting
      queries that follow it.

    Conventions of the embedding.

    - A Python [str] is a [string]; its characters are the code points
      U+0000 to U+00FF.  [encode] is UTF-8 on that range.
    - A Python [float] is a [pyfloat]: an exact rational, an infinity or a
      NaN.  Rounding to binary64 is not modelled: a finite value is the exact
      decimal that was read.
    - The network, the clock and the random generator are fields of an
      explicit [World]; code that sleeps, draws random numbers or performs a
      GET is written in a state-and-exception monad over it.
    - The parsed page ([BeautifulSoup(response.text, 'html.parser')]) is a
      tree of [node]s; the HTML tokenizer itself is outside the embedding.
    - A table of the warehouse is a list of rows: Snowflake enforces no key
      constraint, so a table is a bag and may hold one identity twice. *)

From Stdlib Require Import List String Ascii Bool Arith ZArith QArith Lia.
From Stdlib Require Import Permutation Sorted DecimalString Lqa.
From Stdlib Require DecimalNat.

Set Warnings "-register-all".
Import ListNotations.

Local Open Scope string_scope.

(** ** Python text primitives *)

Module PyStr.

Definition code (c : ascii) : N := N_of_ascii c.

Definition in_range (lo hi : N) (c : ascii) : bool :=
  (N.leb lo (code c) && N.leb (code c) hi)%bool.

Definition is_digit (c : ascii) : bool := in_range 48 57 c.
Arguments is_digit : simpl never.

(** [str.isspace] on U+0000..U+00FF: TAB, LF, VT, FF, CR, the separators
    U+001C..U+001F, SPACE, NEL (U+0085) and NBSP (U+00A0). *)
Definition is_space (c : ascii) : bool :=
  (in_range 9 13 c || in_range 28 32 c
   || N.eqb (code c) 133 || N.eqb (code c) 160)%bool.
Arguments is_space : simpl never.

(** [str.lower] on one code point of the range: A-Z, and the Latin-1
    capitals U+00C0..U+00DE except the multiplication sign U+00D7. *)
Definition lower_char (c : ascii) : ascii :=
  if (in_range 65 90 c
      || (in_range 192 222 c && negb (N.eqb (code c) 215)))%bool
  then ascii_of_N (code c + 32)
  else c.
Arguments lower_char : simpl never.

Fixpoint lower (s : string) : string :=
  match s with
  | EmptyString => EmptyString
  | String c r => String (lower_char c) (lower r)
  end.

(** [s.replace(c, '')] for a one-character pattern. *)
Fixpoint remove_char (c : ascii) (s : string) : string :=
  match s with
  | EmptyString => EmptyString
  | String d r =>
      if Ascii.eqb c d then remove_char c r else String d (remove_char c r)
  end.

Fixpoint lstrip_by (p : ascii -> bool) (s : string) : string :=
  match s with
  | EmptyString => EmptyString
  | String c r => if p c then lstrip_by p r else s
  end.

Fixpoint rstrip_by (p : ascii -> bool) (s : string) : string :=
  match s with
  | EmptyString => EmptyString
  | String c r =>
      match rstrip_by p r with
      | EmptyString => if p c then EmptyString else String c EmptyString
      | r' => String c r'
      end
  end.

Definition strip_by (p : ascii -> bool) (s : string) : string :=
  rstrip_by p (lstrip_by p s).

(** [s.strip()] *)
Definition strip (s : string) : string := strip_by is_space s.

Fixpoint mem_char (c : ascii) (s : string) : bool :=
  match s with
  | EmptyString => false
  | String d r => (Ascii.eqb c d || mem_char c r)%bool
  end.

(** [s.strip(chars)] *)
Definition strip_chars (chars : string) (s : string) : string :=
  strip_by (fun c => mem_char c chars) s.

Fixpoint existsb_char (p : ascii -> bool) (s : string) : bool :=
  match s with
  | EmptyString => false
  | String c r => (p c || existsb_char p r)%bool
  end.


Fixpoint filter_char (p : ascii -> bool) (s : string) : string :=
  match s with
  | EmptyString => EmptyString
  | String c r => if p c then String c (filter_char p r) else filter_char p r
  end.

(** [sub in s] *)
Fixpoint contains (sub s : string) : bool :=
  (String.prefix sub s
   || match s with
      | EmptyString => false
      | String _ r => contains sub r
      end)%bool.

(** [sep.join(parts)] *)
Fixpoint join (sep : string) (parts : list string) : string :=
  match parts with
  | [] => EmptyString
  | [p] => p
  | p :: ps => p ++ sep ++ join sep ps
  end.

(** [s.encode()]: UTF-8 of code points below U+0100, as byte values. *)
Fixpoint encode (s : string) : list Z :=
  match s with
  | EmptyString => []
  | String c r =>
      let n := Z.of_N (code c) in
      if Z.ltb n 128 then n :: encode r
      else Z.lor 192 (Z.shiftr n 6) :: Z.lor 128 (Z.land n 63) :: encode r
  end.

End PyStr.

(** ** Python floats and [float(str)] *)

(** A float value: finite (the exact decimal that was read), an infinity or
    a NaN. *)
Inductive pyfloat : Type :=
| Fin (q : Q)
| PosInf
| NegInf
| NaN.

Module PyFloat.
Import PyStr.

Definition digit_val (c : ascii) : Z := Z.of_N (code c) - 48.

(** Reads a run of decimal digits: the accumulated value, the number of
    digits read, and what follows. *)
Fixpoint read_digits (acc : Z) (n : nat) (s : string) : Z * nat * string :=
  match s with
  | String c r =>
      if is_digit c then read_digits (10 * acc + digit_val c) (S n) r
      else (acc, n, s)
  | EmptyString => (acc, n, s)
  end.

(** [m * 10^e], reduced. *)
Definition scale (m e : Z) : Q :=
  match e with
  | Zneg p => Qred (m # Pos.pow 10 p)
  | _ => inject_Z (m * 10 ^ e)
  end.

Definition parse_sign (s : string) : bool * string :=
  match s with
  | String "-" r => (true, r)
  | String "+" r => (false, r)
  | _ => (false, s)
  end.

Definition signed (neg : bool) (z : Z) : Z := if neg then - z else z.

(** The words accepted besides numerals: an optional sign, then [inf],
    [infinity] or [nan] in any letter case. *)
Definition inf_or_nan (s : string) : option pyfloat :=
  let (neg, r) := parse_sign s in
  let w := lower r in
  if (String.eqb w "inf" || String.eqb w "infinity")%bool
  then Some (if neg then NegInf else PosInf)
  else if String.eqb w "nan" then Some NaN
  else None.

Definition is_exp_mark (c : ascii) : bool :=
  (Ascii.eqb c "e" || Ascii.eqb c "E")%bool.

(** A decimal numeral: sign, digits with an optional point (at least one
    digit in all), and an optional exponent with at least one digit.  The
    whole string must be consumed. *)
Definition parse_decimal (s : string) : option pyfloat :=
  let (neg, r0) := parse_sign s in
  let '(m1, n1, r1) := read_digits 0 0 r0 in
  let '(m2, n2, r2) :=
    match r1 with
    | String "." r => read_digits m1 0 r
    | _ => (m1, 0%nat, r1)
    end in
  if Nat.eqb (n1 + n2) 0 then None
  else
    match r2 with
    | EmptyString => Some (Fin (scale (signed neg m2) (- Z.of_nat n2)))
    | String e r3 =>
        if is_exp_mark e then
          let (eneg, r4) := parse_sign r3 in
          let '(x, nx, r5) := read_digits 0 0 r4 in
          if Nat.eqb nx 0 then None
          else
            match r5 with
            | EmptyString =>
                Some (Fin (scale (signed neg m2) (signed eneg x - Z.of_nat n2)))
            | _ => None
            end
        else None
    end.

(** Code points from U+007F on become a space when they are white space and
    [?] otherwise (no decimal digit lives in U+0080..U+00FF). *)
Definition to_ascii_char (c : ascii) : ascii :=
  if N.ltb (code c) 127 then c
  else if is_space c then " "%char else "?"%char.
Arguments to_ascii_char : simpl never.

Fixpoint transform (s : string) : string :=
  match s with
  | EmptyString => EmptyString
  | String c r => String (to_ascii_char c) (transform r)
  end.

(** Underscores are dropped when each one sits between two digits; any
    other underscore rejects the input. *)
Fixpoint drop_underscores (prev : ascii) (s : string) : option string :=
  match s with
  | EmptyString => if Ascii.eqb prev "_" then None else Some EmptyString
  | String c r =>
      if Ascii.eqb c "_" then
        if is_digit prev then drop_underscores c r else None
      else if (Ascii.eqb prev "_" && negb (is_digit c))%bool then None
      else option_map (String c) (drop_underscores c r)
  end.

(** The white space of the C locale, stripped by the float parser. *)
Definition c_isspace (c : ascii) : bool :=
  (in_range 9 13 c || N.eqb (code c) 32)%bool.
Arguments c_isspace : simpl never.

(** [float(s)] for a [str] argument; [None] stands for [ValueError]. *)
Definition py_float (s : string) : option pyfloat :=
  match drop_underscores zero (transform s) with
  | None => None
  | Some t =>
      let u := strip_by c_isspace t in
      match inf_or_nan u with
      | Some f => Some f
      | None => parse_decimal u
      end
  end.

End PyFloat.

(** ** Normalizer: price parsing *)

(** [clean_price] of the dashboard, [GolfClubScraper._clean_price] of the
    script: the two bodies are the same.  The bare [except] turns every
    failure of [float] into [None]. *)
Definition clean_price (price_str : string) : option pyfloat :=
  PyFloat.py_float
    (PyStr.strip (PyStr.remove_char "," (PyStr.remove_char "$" price_str))).

(** ** MD5 ([hashlib.md5(...).hexdigest()]) *)

Module MD5.
Local Open Scope Z_scope.

Definition wrap (x : Z) : Z := x mod 2 ^ 32.

Definition rotl (x : Z) (n : Z) : Z :=
  wrap (Z.lor (Z.shiftl x n) (Z.shiftr x (32 - n))).

Definition not32 (x : Z) : Z := Z.lxor x 4294967295.

Definition K : list Z :=
  [ 0xd76aa478; 0xe8c7b756; 0x242070db; 0xc1bdceee;
    0xf57c0faf; 0x4787c62a; 0xa8304613; 0xfd469501;
    0x698098d8; 0x8b44f7af; 0xffff5bb1; 0x895cd7be;
    0x6b901122; 0xfd987193; 0xa679438e; 0x49b40821;
    0xf61e2562; 0xc040b340; 0x265e5a51; 0xe9b6c7aa;
    0xd62f105d; 0x02441453; 0xd8a1e681; 0xe7d3fbc8;
    0x21e1cde6; 0xc33707d6; 0xf4d50d87; 0x455a14ed;
    0xa9e3e905; 0xfcefa3f8; 0x676f02d9; 0x8d2a4c8a;
    0xfffa3942; 0x8771f681; 0x6d9d6122; 0xfde5380c;
    0xa4beea44; 0x4bdecfa9; 0xf6bb4b60; 0xbebfbc70;
    0x289b7ec6; 0xeaa127fa; 0xd4ef3085; 0x04881d05;
    0xd9d4d039; 0xe6db99e5; 0x1fa27cf8; 0xc4ac5665;
    0xf4292244; 0x432aff97; 0xab9423a7; 0xfc93a039;
    0x655b59c3; 0x8f0ccc92; 0xffeff47d; 0x85845dd1;
    0x6fa87e4f; 0xfe2ce6e0; 0xa3014314; 0x4e0811a1;
    0xf7537e82; 0xbd3af235; 0x2ad7d2bb; 0xeb86d391 ]%Z.

Definition shifts : list Z :=
  [ 7; 12; 17; 22; 7; 12; 17; 22; 7; 12; 17; 22; 7; 12; 17; 22;
    5; 9; 14; 20; 5; 9; 14; 20; 5; 9; 14; 20; 5; 9; 14; 20;
    4; 11; 16; 23; 4; 11; 16; 23; 4; 11; 16; 23; 4; 11; 16; 23;
    6; 10; 15; 21; 6; 10; 15; 21; 6; 10; 15; 21; 6; 10; 15; 21 ]%Z.

Record state : Type := mkState { sa : Z; sb : Z; sc : Z; sd : Z }.

Definition init : state :=
  mkState 0x67452301 0xefcdab89 0x98badcfe 0x10325476.

(** Little-endian word of four bytes. *)
Definition word_of (bs : list Z) : Z :=
  match bs with
  | [b0; b1; b2; b3] =>
      Z.lor b0 (Z.lor (Z.shiftl b1 8) (Z.lor (Z.shiftl b2 16) (Z.shiftl b3 24)))
  | _ => 0
  end.

Fixpoint words_of (n : nat) (bs : list Z) : list Z :=
  match n with
  | O => []
  | S n' => word_of (firstn 4 bs) :: words_of n' (skipn 4 bs)
  end.

Definition round_fg (i : nat) (b c d : Z) : Z * nat :=
  if Nat.ltb i 16 then (Z.lor (Z.land b c) (Z.land (not32 b) d), i)
  else if Nat.ltb i 32 then
    (Z.lor (Z.land d b) (Z.land (not32 d) c), (5 * i + 1) mod 16)%nat
  else if Nat.ltb i 48 then (Z.lxor b (Z.lxor c d), (3 * i + 5) mod 16)%nat
  else (Z.lxor c (Z.lor b (not32 d)), (7 * i) mod 16)%nat.

Definition step (M : list Z) (st : state) (i : nat) : state :=
  let '(mkState a b c d) := st in
  let (f, g) := round_fg i b c d in
  let f' := wrap (f + a + nth i K 0 + nth g M 0) in
  mkState d (wrap (b + rotl f' (nth i shifts 0))) b c.

Definition compress (st : state) (chunk : list Z) : state :=
  let M := words_of 16 chunk in
  let r := fold_left (step M) (seq 0 64) st in
  mkState (wrap (sa st + sa r)) (wrap (sb st + sb r))
          (wrap (sc st + sc r)) (wrap (sd st + sd r)).

Fixpoint bytes_le (n : nat) (x : Z) : list Z :=
  match n with
  | O => []
  | S n' => Z.land x 255 :: bytes_le n' (Z.shiftr x 8)
  end.

(** The message, the byte 0x80, zeros up to 56 modulo 64, and the bit
    length on eight bytes. *)
Definition pad (msg : list Z) : list Z :=
  let len := Z.of_nat (List.length msg) in
  let zeros := Z.to_nat ((55 - len) mod 64) in
  (msg ++ 128 :: repeat 0 zeros ++ bytes_le 8 ((8 * len) mod 2 ^ 64))%list.

Fixpoint absorb (fuel : nat) (st : state) (bs : list Z) : state :=
  match fuel, bs with
  | S fuel', _ :: _ => absorb fuel' (compress st (firstn 64 bs)) (skipn 64 bs)
  | _, _ => st
  end.

Definition digest (msg : list Z) : list Z :=
  let p := pad msg in
  let st := absorb (List.length p) init p in
  (bytes_le 4 (sa st) ++ bytes_le 4 (sb st)
     ++ bytes_le 4 (sc st) ++ bytes_le 4 (sd st))%list.

Definition hex_digit (n : Z) : ascii :=
  if Z.ltb n 10 then ascii_of_N (Z.to_N (48 + n))
  else ascii_of_N (Z.to_N (87 + n)).

Fixpoint hex (bs : list Z) : string :=
  match bs with
  | [] => EmptyString
  | b :: r =>
      String (hex_digit (Z.shiftr b 4)) (String (hex_digit (Z.land b 15)) (hex r))
  end.

Definition hexdigest (msg : list Z) : string := hex (digest msg).


End MD5.

(** ** Data model *)

(** The dict built by [parse_product]: nine fixed keys; every value is a
    [str] except ['Price'], which is a float or [None]. *)
Record product_info : Type := mkProduct {
  Brand : string;
  Model : string;
  Price : option pyfloat;
  Condition : string;
  Dexterity : string;
  Loft : string;
  Flex : string;
  Shaft : string;
  URL : string
}.

(** The initial value of [product_info] in [parse_product]. *)
Definition blank_product : product_info :=
  mkProduct "" "" None "" "" "" "" "" "".

(** Field updates ([product_info['Brand'] = v] and the like). *)
Definition set_Brand (v : string) (p : product_info) : product_info :=
  mkProduct v (Model p) (Price p) (Condition p) (Dexterity p) (Loft p)
            (Flex p) (Shaft p) (URL p).
Definition set_Model (v : string) (p : product_info) : product_info :=
  mkProduct (Brand p) v (Price p) (Condition p) (Dexterity p) (Loft p)
            (Flex p) (Shaft p) (URL p).
Definition set_Price (v : option pyfloat) (p : product_info) : product_info :=
  mkProduct (Brand p) (Model p) v (Condition p) (Dexterity p) (Loft p)
            (Flex p) (Shaft p) (URL p).
Definition set_Condition (v : string) (p : product_info) : product_info :=
  mkProduct (Brand p) (Model p) (Price p) v (Dexterity p) (Loft p)
            (Flex p) (Shaft p) (URL p).
Definition set_Dexterity (v : string) (p : product_info) : product_info :=
  mkProduct (Brand p) (Model p) (Price p) (Condition p) v (Loft p)
            (Flex p) (Shaft p) (URL p).
Definition set_Loft (v : string) (p : product_info) : product_info :=
  mkProduct (Brand p) (Model p) (Price p) (Condition p) (Dexterity p) v
            (Flex p) (Shaft p) (URL p).
Definition set_Flex (v : string) (p : product_info) : product_info :=
  mkProduct (Brand p) (Model p) (Price p) (Condition p) (Dexterity p) (Loft p)
            v (Shaft p) (URL p).
Definition set_Shaft (v : string) (p : product_info) : product_info :=
  mkProduct (Brand p) (Model p) (Price p) (Condition p) (Dexterity p) (Loft p)
            (Flex p) v (URL p).
Definition set_URL (v : string) (p : product_info) : product_info :=
  mkProduct (Brand p) (Model p) (Price p) (Condition p) (Dexterity p) (Loft p)
            (Flex p) (Shaft p) v.


Definition product_keys : list string :=
  ["Brand"; "Model"; "Price"; "Condition"; "Dexterity"; "Loft"; "Flex";
   "Shaft"; "URL"].


(** ** The parsed page *)

(** A node of the tree built by BeautifulSoup: a text node
    ([NavigableString]) or a tag with its attributes and children. *)
Inductive node : Type :=
| Text (s : string)
| Tag (name : string) (attrs : list (string * string)) (children : list node).

Module Soup.
Import PyStr.

Fixpoint assoc (key : string) (l : list (string * string)) : option string :=
  match l with
  | [] => None
  | (k, v) :: r => if String.eqb k key then Some v else assoc key r
  end.

(** The maximal runs of non-space characters: the values of the
    multi-valued [class] attribute. *)
Fixpoint tokens_aux (cur : string) (s : string) : list string :=
  match s with
  | EmptyString =>
      match cur with EmptyString => [] | _ => [cur] end
  | String c r =>
      if is_space c then
        match cur with
        | EmptyString => tokens_aux EmptyString r
        | _ => cur :: tokens_aux EmptyString r
        end
      else tokens_aux (cur ++ String c EmptyString) r
  end.

Definition class_tokens (attrs : list (string * string)) : option (list string) :=
  option_map (tokens_aux EmptyString) (assoc "class" attrs).

(** [class_=cls]: one of the class values is [cls], or the values joined
    by single spaces are [cls]. *)
Definition has_class (cls : string) (attrs : list (string * string)) : bool :=
  match class_tokens attrs with
  | None => false
  | Some toks =>
      (existsb (String.eqb cls) toks || String.eqb (join " " toks) cls)%bool
  end.

Definition matches (name cls : string) (n : node) : bool :=
  match n with
  | Text _ => false
  | Tag nm attrs _ => (String.eqb nm name && has_class cls attrs)%bool
  end.

(** The descendants of a node in document order, each with its
    [next_sibling]. *)
Fixpoint descendants (n : node) : list (node * option node) :=
  match n with
  | Text _ => []
  | Tag _ _ kids =>
      (fix walk (l : list node) : list (node * option node) :=
         match l with
         | [] => []
         | k :: r => ((k, hd_error r) :: descendants k ++ walk r)%list
         end) kids
  end.

(** [n.find_all(name, class_=cls)], with the sibling that follows each
    result. *)
Definition find_all_sib (name cls : string) (n : node)
  : list (node * option node) :=
  filter (fun d => matches name cls (fst d)) (descendants n).

Definition find_all (name cls : string) (n : node) : list node :=
  map fst (find_all_sib name cls n).

(** [n.find(name, class_=cls)] *)
Definition find (name cls : string) (n : node) : option node :=
  hd_error (find_all name cls n).

Definition text_of (n : node) : string :=
  match n with
  | Text s => s
  | Tag _ _ _ => EmptyString
  end.

(** [n.get_text()] *)
Definition get_text (n : node) : string :=
  match n with
  | Text s => s
  | Tag _ _ _ => String.concat "" (map (fun d => text_of (fst d)) (descendants n))
  end.

(** [n.get(key, default)] *)
Definition get_attr (key default : string) (n : node) : string :=
  match n with
  | Text _ => default
  | Tag _ attrs _ =>
      match assoc key attrs with Some v => v | None => default end
  end.

End Soup.

(** ** Extractor: [parse_product] *)

Definition BASE_URL : string := "https://www.2ndswing.com".

(** One pass of the loop over the attribute labels.  [d] is a label with its
    [next_sibling]; [None] is the exception raised by [value.strip(' :,')]
    when the sibling is a tag, which has no such method. *)
Definition apply_label (acc : option product_info) (d : node * option node)
  : option product_info :=
  match acc with
  | None => None
  | Some p =>
      let label_text := PyStr.strip (Soup.get_text (fst d)) in
      match snd d with
      | None => Some p
      | Some (Text "") => Some p
      | Some (Text v) =>
          let value := PyStr.strip_chars " :," v in
          if PyStr.contains "Dexterity:" label_text then
            Some (set_Dexterity value p)
          else if PyStr.contains "Loft:" label_text then
            Some (set_Loft value p)
          else if PyStr.contains "Flex:" label_text then
            Some (set_Flex value p)
          else if PyStr.contains "Shaft:" label_text then
            Some (set_Shaft value p)
          else Some p
      | Some (Tag _ _ _) => None
      end
  end.

(** [parse_product(product_element)]: [None] is the value returned by the
    [except] branch. *)
Definition parse_product (base_url : string) (product_element : node)
  : option product_info :=
  let p0 := blank_product in
  let p1 :=
    match Soup.find "div" "product-brand" product_element with
    | Some e => set_Brand (PyStr.strip (Soup.get_text e)) p0
    | None => p0
    end in
  let p2 :=
    match Soup.find "div" "pmp-product-category" product_element with
    | Some e => set_Model (PyStr.strip (Soup.get_text e)) p1
    | None => p1
    end in
  let p3 :=
    match Soup.find "div" "current-price" product_element with
    | Some e => set_Price (clean_price (PyStr.strip (Soup.get_text e))) p2
    | None => p2
    end in
  let p4 :=
    match Soup.find "div" "pmp-product-condition" product_element with
    | Some e => set_Condition (PyStr.strip (Soup.get_text e)) p3
    | None => p3
    end in
  let p5 :=
    match Soup.find "div" "pmp-product-attributes" product_element with
    | Some e =>
        fold_left apply_label
          (Soup.find_all_sib "span" "pmp-attribute-label" e) (Some p4)
    | None => Some p4
    end in
  match p5 with
  | None => None
  | Some p =>
      match Soup.find "a" "product-item-link" product_element with
      | Some e => Some (set_URL (base_url ++ Soup.get_attr "href" "" e) p)
      | None => Some p
      end
  end.

(** The loop of [scrape_products] over the listing elements of one page:
    [if product_info: products.append(product_info)]. *)
Fixpoint extend_products (base_url : string) (products : list product_info)
  (elements : list node) : list product_info :=
  match elements with
  | [] => products
  | element :: rest =>
      match parse_product base_url element with
      | Some product_info =>
          extend_products base_url (products ++ [product_info]) rest
      | None => extend_products base_url products rest
      end
  end.

(** ** The outside world: network, clock, random generator *)

Record Response : Type := mkResponse {
  status_code : nat;
  headers : list (string * string);
  (** the document obtained from [response.text] with the HTML parser *)
  page : node
}.

(** What one GET meets: a reply of the server, whatever its status, or a
    failure of the connection. *)
Inductive outcome : Type :=
| Reply (r : Response)
| NoReply.

Inductive exn : Type :=
| HTTPError (status : nat) (hdrs : list (string * string))
| ConnectionError
| ValueError
| OverflowError.

(** [isinstance(e, requests.RequestException)] *)
Definition is_request_exception (e : exn) : bool :=
  match e with
  | HTTPError _ _ | ConnectionError => true
  | _ => false
  end.

Record World : Type := mkWorld {
  (** what the successive GETs will meet; once exhausted, connections fail *)
  pending : list outcome;
  (** the successive values of [random.random()]; once exhausted, 0 *)
  draws : list Q;
  (** the URLs requested so far, oldest first *)
  requested : list string;
  (** the durations slept so far, oldest first *)
  slept : list Q
}.

Inductive result (A : Type) : Type :=
| Ok (a : A)
| Raise (e : exn).
Arguments Ok {A} a.
Arguments Raise {A} e.

Definition M (A : Type) : Type := World -> result A * World.

Definition ret {A} (a : A) : M A := fun w => (Ok a, w).

Definition raise {A} (e : exn) : M A := fun w => (Raise e, w).

Definition bind {A B} (m : M A) (k : A -> M B) : M B :=
  fun w =>
    match m w with
    | (Ok a, w') => k a w'
    | (Raise e, w') => (Raise e, w')
    end.

(** [try: m except ...: h] *)
Definition try_catch {A} (m : M A) (h : exn -> M A) : M A :=
  fun w =>
    match m w with
    | (Ok a, w') => (Ok a, w')
    | (Raise e, w') => h e w'
    end.

Declare Scope monad_scope.
Delimit Scope monad_scope with monad.
Notation "x <- m ;; k" := (bind m (fun x => k))
  (at level 61, m at next level, right associativity) : monad_scope.
Notation "m ;; k" := (bind m (fun _ => k))
  (at level 61, right associativity) : monad_scope.

(** [session.get(url)] *)
Definition session_get (url : string) : M Response :=
  fun w =>
    let w' := mkWorld (tl (pending w)) (draws w)
                      (requested w ++ [url]) (slept w) in
    match pending w with
    | Reply r :: _ => (Ok r, w')
    | NoReply :: _ | [] => (Raise ConnectionError, w')
    end.

(** [response.raise_for_status()] *)
Definition raise_for_status (r : Response) : M unit :=
  if (Nat.leb 400 (status_code r) && Nat.ltb (status_code r) 600)%bool
  then raise (HTTPError (status_code r) (headers r))
  else ret tt.

(** [time.sleep(secs)]: NaN and negative durations raise [ValueError],
    infinite ones [OverflowError]. *)
Definition sleep (secs : pyfloat) : M unit :=
  match secs with
  | Fin q =>
      if Qle_bool 0 q then
        fun w => (Ok tt, mkWorld (pending w) (draws w) (requested w)
                                 (slept w ++ [Qred q]))
      else raise ValueError
  | NaN => raise ValueError
  | PosInf | NegInf => raise OverflowError
  end.

(** [random.uniform(a, b)], that is [a + (b - a) * random()]. *)
Definition uniform (a b : Q) : M Q :=
  fun w =>
    let r := hd 0 (draws w) in
    (Ok (a + (b - a) * r),
     mkWorld (pending w) (tl (draws w)) (requested w) (slept w)).

(** [headers.get(name)] on the case-insensitive dict of [requests]. *)
Fixpoint header_get (name : string) (hdrs : list (string * string))
  : option string :=
  match hdrs with
  | [] => None
  | (k, v) :: r =>
      if String.eqb (PyStr.lower k) (PyStr.lower name) then Some v
      else header_get name r
  end.

(** Decimal text of a page number, as an f-string prints an [int]. *)
Definition str_of_nat (n : nat) : string :=
  DecimalString.NilZero.string_of_uint (Nat.to_uint n).

(** What one pass of the pagination loop decides. *)
Inductive flow : Type :=
| Break
| Continue.

(** ** The data frame *)

(** A row of the frame: the scraped dict and the two columns that
    [scrape_products] adds; [None] when the frame has no such column. *)
Record df_row : Type := mkRow {
  info : product_info;
  SOURCE_URL : option string;
  DRIVER_ID : option string
}.

Record DataFrame : Type := mkFrame {
  columns : list string;
  rows : list df_row
}.

(** [pd.DataFrame(products)] for a list of dicts: the columns are the keys of
    the dicts, so a frame made from no dict has no column. *)
Definition DataFrame_of (products : list product_info) : DataFrame :=
  mkFrame (match products with [] => [] | _ :: _ => product_keys end)
          (map (fun p => mkRow p None None) products).

(** [df.empty] *)
Definition df_empty (df : DataFrame) : bool :=
  (Nat.eqb (List.length (columns df)) 0 || Nat.eqb (List.length (rows df)) 0)%bool.

(** [len(df)] *)
Definition df_len (df : DataFrame) : nat := List.length (rows df).

Definition add_column (c : string) (cols : list string) : list string :=
  if existsb (String.eqb c) cols then cols else (cols ++ [c])%list.

(** [df['SOURCE_URL'] = url] *)
Definition assign_SOURCE_URL (url : string) (df : DataFrame) : DataFrame :=
  mkFrame (add_column "SOURCE_URL" (columns df))
          (map (fun r => mkRow (info r) (Some url) (DRIVER_ID r)) (rows df)).

(** [df['DRIVER_ID'] = df.apply(f, axis=1)] *)
Definition assign_DRIVER_ID (f : df_row -> string) (df : DataFrame) : DataFrame :=
  mkFrame (add_column "DRIVER_ID" (columns df))
          (map (fun r => mkRow (info r) (SOURCE_URL r) (Some (f r))) (rows df)).

(** The header line that [df.to_csv(index=False)] writes. *)
Definition csv_header (df : DataFrame) : string :=
  PyStr.join "," (columns df).

(** ** Normalizer: identity *)

(** [create_driver_id(row)] of the dashboard,
    [GolfClubScraper._create_driver_id] of the script. *)
Definition unique_string (row : df_row) : string :=
  let r := info row in
  Brand r ++ "_" ++ Model r ++ "_" ++ Condition r ++ "_" ++ Dexterity r
    ++ "_" ++ Loft r ++ "_" ++ Flex r ++ "_" ++ Shaft r.

Definition create_driver_id (row : df_row) : string :=
  MD5.hexdigest (PyStr.encode (PyStr.lower (unique_string row))).

(** ** Normalizer: ordering *)

(** The missing values of pandas: [None] and NaN. *)
Definition isna (p : option pyfloat) : bool :=
  match p with
  | None | Some NaN => true
  | _ => false
  end.

(** Order of the float values that are not NaN. *)
Definition float_compare (x y : pyfloat) : comparison :=
  match x, y with
  | Fin a, Fin b => Qcompare a b
  | NegInf, NegInf | PosInf, PosInf => Eq
  | NegInf, _ => Lt
  | _, NegInf => Gt
  | PosInf, _ => Gt
  | _, PosInf => Lt
  | NaN, _ | _, NaN => Eq
  end.

(** The key ['Price'] in descending order, missing values last. *)
Definition price_compare_desc (p q : option pyfloat) : comparison :=
  match isna p, isna q with
  | true, true => Eq
  | true, false => Gt
  | false, true => Lt
  | false, false =>
      match p, q with
      | Some x, Some y => float_compare y x
      | _, _ => Eq
      end
  end.

(** [sort_values(['Price', 'Brand'], ascending=[False, True])]: the
    lexicographic order of the two keys. *)
Definition row_compare (r1 r2 : df_row) : comparison :=
  match price_compare_desc (Price (info r1)) (Price (info r2)) with
  | Eq => String.compare (Brand (info r1)) (Brand (info r2))
  | c => c
  end.

Definition row_leb (r1 r2 : df_row) : bool :=
  match row_compare r1 r2 with
  | Gt => false
  | _ => true
  end.

(** Rows that the two keys do not tell apart. *)
Definition same_keys (r1 r2 : df_row) : bool :=
  match row_compare r1 r2 with
  | Eq => true
  | _ => false
  end.

Fixpoint insert_row_sorted (r : df_row) (l : list df_row) : list df_row :=
  match l with
  | [] => [r]
  | x :: l' => if row_leb r x then r :: l else x :: insert_row_sorted r l'
  end.

(** The stable sort on several keys: rows with the same keys keep the order
    of the frame. *)
Definition stable_sort (l : list df_row) : list df_row :=
  fold_right insert_row_sorted [] l.

Definition sort_values (df : DataFrame) : DataFrame :=
  mkFrame (columns df) (stable_sort (rows df)).

(** The end of [scrape_products], after the pagination loop. *)
Definition finish_frame (url : string) (products : list product_info) : DataFrame :=
  let df := DataFrame_of products in
  if negb (df_empty df) then
    let df := assign_SOURCE_URL url df in
    let df := assign_DRIVER_ID create_driver_id df in
    sort_values df
  else df.

(** ** The dashboard, [Streamlit_Webscrape.py] *)

Module Streamlit.
Local Open Scope monad_scope.

(** What the handler of HTTP 429 sleeps: the [Retry-After] header when it
    is there, not empty and accepted by [float]; otherwise twice the delay
    slept before the request. *)
Definition retry_after_of (hdrs : list (string * string)) (delay : Q) : pyfloat :=
  match header_get "Retry-After" hdrs with
  | Some EmptyString | None => Fin (delay * 2)
  | Some h =>
      match PyFloat.py_float h with
      | Some f => f
      | None => Fin (delay * 2)
      end
  end.

(** The delay slept before the request of one attempt, given the value
    of [random.uniform(1, 3)]. *)
Definition delay_of (base_delay : Z) (attempt : nat) (u : Q) : Q :=
  inject_Z base_delay + inject_Z (Z.of_nat attempt * 2) + u.

(** The body of [for attempt in range(retry_count)], over the attempts
    that remain. *)
Fixpoint make_request_loop (url : string) (retry_count : nat) (base_delay : Z)
  (attempts : list nat) : M (option Response) :=
  match attempts with
  | [] => ret None
  | attempt :: rest =>
      u <- uniform 1 3 ;;
      let delay := delay_of base_delay attempt u in
      try_catch
        (sleep (Fin delay) ;;
         response <- session_get url ;;
         raise_for_status response ;;
         ret (Some response))
        (fun e =>
           match e with
           | HTTPError status hdrs =>
               if Nat.eqb status 429 then
                 sleep (retry_after_of hdrs delay) ;;
                 if Nat.eqb attempt (retry_count - 1) then raise e
                 else make_request_loop url retry_count base_delay rest
               else raise e
           | ConnectionError =>
               if Nat.eqb attempt (retry_count - 1) then raise e
               else
                 j <- uniform 0 1 ;;
                 sleep (Fin (inject_Z (2 ^ Z.of_nat attempt) + j)) ;;
                 make_request_loop url retry_count base_delay rest
           | _ => raise e
           end)
  end.

Definition make_request_with (url : string) (retry_count : nat) (base_delay : Z)
  : M (option Response) :=
  make_request_loop url retry_count base_delay (seq 0 retry_count).

(** [make_request(url)] with the default [retry_count=3], [base_delay=5]. *)
Definition make_request (url : string) : M (option Response) :=
  make_request_with url 3 5.

Definition parse_product : node -> option product_info :=
  parse_product "https://www.2ndswing.com".

Definition page_url (url : string) (current_page : nat) : string :=
  if Nat.ltb 1 current_page then url ++ "?p=" ++ str_of_nat current_page
  else url.

(** One pass of [while current_page <= max_pages], inside its [try]. *)
Definition scrape_page (url : string) (current_page : nat)
  (products : list product_info) : M (flow * list product_info) :=
  try_catch
    (response <- make_request (page_url url current_page) ;;
     match response with
     | None => ret (Break, products)
     | Some response =>
         let soup := page response in
         match Soup.find_all "li" "item product product-item" soup with
         | [] => ret (Break, products)
         | product_elements =>
             let products' :=
               extend_products "https://www.2ndswing.com" products
                               product_elements in
             match Soup.find "a" "next" soup with
             | None => ret (Break, products')
             | Some _ => ret (Continue, products')
             end
         end
     end)
    (fun _ => ret (Break, products)).

(** The [while] loop; [None] when [fuel] passes run out before it ends. *)
Fixpoint scrape_loop (fuel : nat) (url : string) (max_pages : nat)
  (current_page : nat) (products : list product_info)
  : M (option (list product_info)) :=
  if Nat.leb current_page max_pages then
    match fuel with
    | O => ret None
    | S fuel' =>
        r <- scrape_page url current_page products ;;
        match r with
        | (Break, products') => ret (Some products')
        | (Continue, products') =>
            scrape_loop fuel' url max_pages (S current_page) products'
        end
    end
  else ret (Some products).

(** [scrape_products(url, max_pages)] *)
Definition scrape_products (fuel : nat) (url : string) (max_pages : nat)
  : M (option DataFrame) :=
  r <- scrape_loop fuel url max_pages 1 [] ;;
  ret (option_map (finish_frame url) r).

End Streamlit.

(** ** The script, [Snowpark_Webscrape.py] *)

Module Snowpark.
Local Open Scope monad_scope.

Definition SLEEP_TIME : Q := 2.

(** The body of [for attempt in range(retry_count)]. *)
Fixpoint make_request_loop (url : string) (retry_count : nat)
  (attempts : list nat) : M (option Response) :=
  match attempts with
  | [] => ret None
  | attempt :: rest =>
      try_catch
        (response <- session_get url ;;
         raise_for_status response ;;
         sleep (Fin SLEEP_TIME) ;;
         ret (Some response))
        (fun e =>
           if is_request_exception e then
             if Nat.eqb attempt (retry_count - 1) then raise e
             else
               sleep (Fin (inject_Z (2 ^ Z.of_nat attempt))) ;;
               make_request_loop url retry_count rest
           else raise e)
  end.

Definition make_request_with (url : string) (retry_count : nat)
  : M (option Response) :=
  make_request_loop url retry_count (seq 0 retry_count).

(** [self._make_request(url)] with the default [retry_count=3]. *)
Definition _make_request (url : string) : M (option Response) :=
  make_request_with url 3.

Definition parse_product : node -> option product_info :=
  parse_product BASE_URL.

Definition page_url (scrape_url : string) (current_page : nat) : string :=
  if Nat.ltb 1 current_page
  then scrape_url ++ "?p=" ++ str_of_nat current_page
  else scrape_url.

(** [MAX_PAGES and current_page > MAX_PAGES]: [None] and 0 both mean that
    there is no limit. *)
Definition limit_reached (MAX_PAGES : option nat) (current_page : nat) : bool :=
  match MAX_PAGES with
  | None | Some O => false
  | Some m => Nat.ltb m current_page
  end.

(** One pass of [while True] past the test of the limit. *)
Definition scrape_page (scrape_url : string) (current_page : nat)
  (products : list product_info) : M (flow * list product_info) :=
  try_catch
    (response <- _make_request (page_url scrape_url current_page) ;;
     match response with
     | None => ret (Break, products)
     | Some response =>
         let soup := page response in
         match Soup.find_all "li" "item product product-item" soup with
         | [] => ret (Break, products)
         | product_elements =>
             let products' :=
               extend_products BASE_URL products product_elements in
             match Soup.find "a" "next" soup with
             | None => ret (Break, products')
             | Some _ => ret (Continue, products')
             end
         end
     end)
    (fun _ => ret (Break, products)).

(** The [while True] loop; [None] when [fuel] passes run out before it
    ends, which only a catalogue without end can cause when there is no
    limit. *)
Fixpoint scrape_loop (fuel : nat) (scrape_url : string)
  (MAX_PAGES : option nat) (current_page : nat)
  (products : list product_info) : M (option (list product_info)) :=
  if limit_reached MAX_PAGES current_page then ret (Some products)
  else
    match fuel with
    | O => ret None
    | S fuel' =>
        r <- scrape_page scrape_url current_page products ;;
        match r with
        | (Break, products') => ret (Some products')
        | (Continue, products') =>
            scrape_loop fuel' scrape_url MAX_PAGES (S current_page) products'
        end
    end.

(** [self.scrape_products()]; the frame is also written to a CSV file,
    whose header is [csv_header]. *)
Definition scrape_products (fuel : nat) (scrape_url : string)
  (MAX_PAGES : option nat) : M (option DataFrame) :=
  r <- scrape_loop fuel scrape_url MAX_PAGES 1 [] ;;
  ret (option_map (finish_frame scrape_url) r).

End Snowpark.

(** ** Reconciler: the warehouse *)

Module Warehouse.

(** A row of the source of the MERGE (the temporary table of the script,
    the view of the dashboard) after the columns were renamed.  [PRICE] is
    nullable: [None] is SQL NULL. *)
Record source_row : Type := mkSource {
  s_DRIVER_ID : string;
  s_BRAND : string;
  s_MODEL : string;
  s_PRICE : option pyfloat;
  s_CONDITION : string;
  s_DEXTERITY : string;
  s_LOFT : string;
  s_FLEX : string;
  s_SHAFT : string;
  s_PRODUCT_URL : string;
  s_SOURCE_URL : string
}.

(** A missing value of the frame ([None] or NaN) is loaded as NULL. *)
Definition sql_price (p : option pyfloat) : option pyfloat :=
  if isna p then None else p.

(** [create_dataframe] after the renaming of [prepare_for_snowflake]:
    [None] when the frame lacks a column that the statements name. *)
Definition source_of_row (r : df_row) : option source_row :=
  match DRIVER_ID r, SOURCE_URL r with
  | Some id, Some src =>
      let p := info r in
      Some (mkSource id (Brand p) (Model p) (sql_price (Price p))
              (Condition p) (Dexterity p) (Loft p) (Flex p) (Shaft p)
              (URL p) src)
  | _, _ => None
  end.

Fixpoint source_of_rows (l : list df_row) : option (list source_row) :=
  match l with
  | [] => Some []
  | r :: l' =>
      match source_of_row r, source_of_rows l' with
      | Some s, Some ss => Some (s :: ss)
      | _, _ => None
      end
  end.

Definition renamed_columns : list string :=
  ["BRAND"; "MODEL"; "PRICE"; "CONDITION"; "DEXTERITY"; "LOFT"; "FLEX";
   "SHAFT"; "PRODUCT_URL"; "SOURCE_URL"; "DRIVER_ID"].

Definition rename_column (c : string) : string :=
  if String.eqb c "Brand" then "BRAND"
  else if String.eqb c "Model" then "MODEL"
  else if String.eqb c "Price" then "PRICE"
  else if String.eqb c "Condition" then "CONDITION"
  else if String.eqb c "Dexterity" then "DEXTERITY"
  else if String.eqb c "Loft" then "LOFT"
  else if String.eqb c "Flex" then "FLEX"
  else if String.eqb c "Shaft" then "SHAFT"
  else if String.eqb c "URL" then "PRODUCT_URL"
  else c.

Definition source_of_frame (df : DataFrame) : option (list source_row) :=
  if forallb (fun c => existsb (String.eqb c) (map rename_column (columns df)))
             renamed_columns
  then source_of_rows (rows df)
  else None.

(** A row of [GOLF_DRIVERS]. *)
Record stored_row : Type := mkStored {
  DRIVER_ID : string;
  BRAND : string;
  MODEL : string;
  PRICE : option pyfloat;
  CONDITION : string;
  DEXTERITY : string;
  LOFT : string;
  FLEX : string;
  SHAFT : string;
  PRODUCT_URL : string;
  SOURCE_URL : string;
  LAST_UPDATED : Z;
  FIRST_SEEN : Z
}.

(** Three-valued [a != b] of SQL, read where a condition is expected:
    true only when neither side is NULL and the values differ. *)
Definition sql_neq (a b : option pyfloat) : bool :=
  match a, b with
  | Some x, Some y =>
      match float_compare x y with
      | Eq => false
      | _ => true
      end
  | _, _ => false
  end.

(** [target.DRIVER_ID = source.DRIVER_ID] *)
Definition on_key (t : stored_row) (s : source_row) : bool :=
  String.eqb (DRIVER_ID t) (s_DRIVER_ID s).

(** The source rows that satisfy
    [WHEN MATCHED AND target.PRICE != source.PRICE] for a target row. *)
Definition update_candidates (t : stored_row) (source : list source_row)
  : list source_row :=
  filter (fun s => (on_key t s && sql_neq (PRICE t) (s_PRICE s))%bool) source.

(** [UPDATE SET PRICE, SOURCE_URL, LAST_UPDATED] *)
Definition updated (now : Z) (t : stored_row) (s : source_row) : stored_row :=
  mkStored (DRIVER_ID t) (BRAND t) (MODEL t) (s_PRICE s) (CONDITION t)
           (DEXTERITY t) (LOFT t) (FLEX t) (SHAFT t) (PRODUCT_URL t)
           (s_SOURCE_URL s) now (FIRST_SEEN t).

(** [INSERT (...) VALUES (...)] *)
Definition inserted (now : Z) (s : source_row) : stored_row :=
  mkStored (s_DRIVER_ID s) (s_BRAND s) (s_MODEL s) (s_PRICE s)
           (s_CONDITION s) (s_DEXTERITY s) (s_LOFT s) (s_FLEX s)
           (s_SHAFT s) (s_PRODUCT_URL s) (s_SOURCE_URL s) now now.

Definition merge_row (now : Z) (source : list source_row) (t : stored_row)
  : stored_row :=
  match update_candidates t source with
  | [s] => updated now t s
  | _ => t
  end.

(** A target row that two source rows would update: the statement is
    rejected (the default [ERROR_ON_NONDETERMINISTIC_MERGE]). *)
Definition ambiguous (source : list source_row) (t : stored_row) : bool :=
  Nat.leb 2 (List.length (update_candidates t source)).

Definition unmatched (target : list stored_row) (s : source_row) : bool :=
  negb (existsb (fun t => on_key t s) target).

(** The MERGE statement at time [now]: the new content of [GOLF_DRIVERS],
    or [None] when the statement fails and leaves the table as it was. *)
Definition merge_into (now : Z) (target : list stored_row)
  (source : list source_row) : option (list stored_row) :=
  if existsb (ambiguous source) target then None
  else Some (map (merge_row now source) target
             ++ map (inserted now) (filter (unmatched target) source))%list.

(** [SELECT COUNT( * ) FROM source s WHERE NOT EXISTS (SELECT 1 FROM
    GOLF_DRIVERS t WHERE t.DRIVER_ID = s.DRIVER_ID)] *)
Definition count_new (target : list stored_row) (source : list source_row) : nat :=
  List.length (filter (unmatched target) source).

(** [SELECT COUNT( * ) FROM source s JOIN GOLF_DRIVERS t ON t.DRIVER_ID =
    s.DRIVER_ID WHERE t.PRICE != s.PRICE] *)
Definition count_updated (target : list stored_row) (source : list source_row)
  : nat :=
  list_sum (map (fun s =>
              List.length (filter (fun t => (on_key t s
                                             && sql_neq (PRICE t) (s_PRICE s))%bool)
                             target))
              source).

Record report : Type := mkReport {
  new_records : nat;
  updated_records : nat
}.

(** [upload_to_snowflake(df)] against the table [GOLF_DRIVERS]: the table
    after the call and the two numbers displayed, or [None] when the call
    raises.  The MERGE runs first and the two counts are read afterwards,
    from the table as the MERGE left it. *)
Definition upload_to_snowflake (now : Z) (GOLF_DRIVERS : list stored_row)
  (df : DataFrame) : option (list stored_row * report) :=
  match source_of_frame df with
  | None => None
  | Some source =>
      match merge_into now GOLF_DRIVERS source with
      | None => None
      | Some table =>
          Some (table,
                mkReport (count_new table source) (count_updated table source))
      end
  end.

End Warehouse.

(** ** Sample inputs *)






Definition digits_of (s : string) : string := PyStr.filter_char PyStr.is_digit s.

(** The exception that [session.get(url)] followed by
    [response.raise_for_status()] raises on an outcome, if any. *)
Definition outcome_exn (o : outcome) : option exn :=
  match o with
  | NoReply => Some ConnectionError
  | Reply r =>
      if (Nat.leb 400 (status_code r) && Nat.ltb (status_code r) 600)%bool
      then Some (HTTPError (status_code r) (headers r))
      else None
  end.

(** The failures that the script retries: every [RequestException]. *)
Definition script_transient (o : outcome) : bool :=
  match outcome_exn o with
  | Some _ => true
  | None => false
  end.




Definition ok_response : Response :=
  mkResponse 200 [] (Tag "html" [] []).

Definition rate_limited (retry_after : option string) : Response :=
  mkResponse 429
    (match retry_after with Some v => [("Retry-After", v)] | None => [] end)
    (Text "Too Many Requests").

Definition fresh_world (pending : list outcome) (draws : list Q) : World :=
  mkWorld pending draws [] [].

(** The draws of the generator lie in the unit interval. *)
Definition draws_ok (w : World) : Prop :=
  Forall (fun d => 0 <= d /\ d <= 1) (draws w).

(** The delay that the dashboard sleeps before the request of an attempt
    made in world [w]: [base_delay + attempt * 2 + random.uniform(1, 3)]. *)
Definition dash_delay (base_delay : Z) (attempt : nat) (w : World) : Q :=
  Streamlit.delay_of base_delay attempt (1 + (3 - 1) * hd 0 (draws w)).


(** *** Pagination, in terms shared by the two front-ends *)

(** [soup.find_all('li', class_='item product product-item')] *)
Definition listing_elements (r : Response) : list node :=
  Soup.find_all "li" "item product product-item" (page r).


(** The records that one page adds to [products]. *)
Definition page_records (r : Response) : list product_info :=
  extend_products BASE_URL [] (listing_elements r).


(** One pass of the loop for a fetcher [fetch]; [Streamlit.scrape_page] and
    [Snowpark.scrape_page] are its two instances. *)
Definition visit (fetch : string -> M (option Response)) (current_url : string)
  (products : list product_info) : M (flow * list product_info) :=
  try_catch
    (bind (fetch current_url) (fun response =>
       match response with
       | None => ret (Break, products)
       | Some response =>
           let soup := page response in
           match Soup.find_all "li" "item product product-item" soup with
           | [] => ret (Break, products)
           | product_elements =>
               let products' :=
                 extend_products BASE_URL products product_elements in
               match Soup.find "a" "next" soup with
               | None => ret (Break, products')
               | Some _ => ret (Continue, products')
               end
           end
       end))
    (fun _ => ret (Break, products)).

(** The loop for a fetcher [fetch], a test [stop] made before each page and
    the address [url_of] of each page. *)
Fixpoint walk (fetch : string -> M (option Response)) (stop : nat -> bool)
  (url_of : nat -> string) (fuel : nat) (current_page : nat)
  (products : list product_info) : M (option (list product_info)) :=
  if stop current_page then ret (Some products)
  else
    match fuel with
    | O => ret None
    | S fuel' =>
        bind (visit fetch (url_of current_page) products) (fun r =>
          match r with
          | (Break, products') => ret (Some products')
          | (Continue, products') =>
              walk fetch stop url_of fuel' (S current_page) products'
          end)
    end.

(** A page without a link to the next one, and a page with one. *)
Definition listing (brand price : string) : node :=
  Tag "li" [("class", "item product product-item")]
    [Tag "div" [("class", "product-brand")] [Text brand];
     Tag "div" [("class", "current-price")] [Text price]].

Definition catalog_page (items : list node) (next : bool) : Response :=
  mkResponse 200 []
    (Tag "html" []
       [Tag "ol" [("class", "products list items")] items;
        Tag "div" [("class", "pages")]
          (if next then [Tag "a" [("class", "action next"); ("href", "?p=2")]
                           [Text "Next"]]
           else [])]).


Definition page1 : Response :=
  catalog_page [listing "Callaway" "$399.99"; listing "Ping" "$250"] true.
Definition page2 : Response :=
  catalog_page [listing "Titleist" "$1,234.50"] true.
Definition page3 : Response :=
  catalog_page [listing "Cobra" "N/A"] false.
Definition page4 : Response :=
  catalog_page [listing "TaylorMade" "$99"] true.

(** A catalogue of four pages whose third page has no link to the next. *)
Definition three_pages : list outcome :=
  [Reply page1; Reply page2; Reply page3; Reply page4].



(** A listing element with every sub-field. *)
Definition complete_listing : node :=
  Tag "li" [("class", "item product product-item")]
    [Tag "div" [("class", "product-brand")] [Text " Callaway "];
     Tag "div" [("class", "pmp-product-category")] [Text "Rogue ST Max Driver"];
     Tag "div" [("class", "current-price")] [Text " $1,234.50 "];
     Tag "div" [("class", "pmp-product-condition")] [Text "Mint"];
     Tag "div" [("class", "pmp-product-attributes")]
       [Tag "span" [("class", "pmp-attribute-label")] [Text "Dexterity:"];
        Text " Right, ";
        Tag "span" [("class", "pmp-attribute-label")] [Text "Loft:"];
        Text " 10.5, ";
        Tag "span" [("class", "pmp-attribute-label")] [Text "Flex:"];
        Text " Stiff, ";
        Tag "span" [("class", "pmp-attribute-label")] [Text "Shaft:"];
        Text " Tensei AV Blue";
        Tag "span" [("class", "pmp-attribute-label")] [Text "Length:"];
        Text " 45.5"];
     Tag "a" [("class", "product-item-link"); ("href", "/callaway-rogue")]
       [Text "Rogue"]].


(** *** Sample tables *)

Definition stored_club (id : string) (price : option pyfloat) (seen : Z)
  : Warehouse.stored_row :=
  Warehouse.mkStored id "Callaway" "Rogue" price "Mint" "Right" "10.5" "Stiff"
    "Tensei" "https://www.2ndswing.com/rogue"
    "https://www.2ndswing.com/golf-clubs/drivers" seen seen.

Definition incoming_club (id : string) (price : option pyfloat)
  : Warehouse.source_row :=
  Warehouse.mkSource id "Callaway" "Rogue" price "Mint" "Right" "10.5" "Stiff"
    "Tensei" "https://www.2ndswing.com/rogue"
    "https://www.2ndswing.com/golf-clubs/iron-sets".

(** The frame of [scrape_products] before it is sorted. *)
Definition tagged_frame (url : string) (products : list product_info)
  : DataFrame :=
  assign_DRIVER_ID create_driver_id
    (assign_SOURCE_URL url (DataFrame_of products)).

Definition one_club : list product_info :=
  [mkProduct "Callaway" "Rogue" (Some (Fin 100)) "Mint" "Right" "10.5"
     "Stiff" "Tensei" "https://www.2ndswing.com/rogue"].

Definition sample_target : list Warehouse.stored_row :=
  [stored_club "a" (Some (Fin 100)) 1; stored_club "b" (Some (Fin 80)) 3].

Definition sample_source : list Warehouse.source_row :=
  [incoming_club "a" (Some (Fin 120)); incoming_club "b" (Some (Fin 80));
   incoming_club "c" (Some (Fin 50))].

(** [sample_target] after the MERGE of [sample_source] at time 7: the price
    of [a] is changed, [b] is left alone, [c] is new. *)
Definition sample_table : list Warehouse.stored_row :=
  [Warehouse.mkStored "a" "Callaway" "Rogue" (Some (Fin 120)) "Mint"
     "Right" "10.5" "Stiff" "Tensei" "https://www.2ndswing.com/rogue"
     "https://www.2ndswing.com/golf-clubs/iron-sets" 7 1;
   stored_club "b" (Some (Fin 80)) 3;
   Warehouse.mkStored "c" "Callaway" "Rogue" (Some (Fin 50)) "Mint"
     "Right" "10.5" "Stiff" "Tensei" "https://www.2ndswing.com/rogue"
     "https://www.2ndswing.com/golf-clubs/iron-sets" 7 7].

(** The frame whose upload gives [sample_source]. *)
Definition sample_row (id : string) (price : option pyfloat) : df_row :=
  mkRow (mkProduct "Callaway" "Rogue" price "Mint" "Right" "10.5" "Stiff"
           "Tensei" "https://www.2ndswing.com/rogue")
        (Some "https://www.2ndswing.com/golf-clubs/iron-sets") (Some id).

Definition sample_frame : DataFrame :=
  mkFrame (product_keys ++ ["SOURCE_URL"; "DRIVER_ID"])
    [sample_row "a" (Some (Fin 120)); sample_row "b" (Some (Fin 80));
     sample_row "c" (Some (Fin 50))].

(** The row [r] with another brand and another model. *)
Definition with_brand_model (brand model : string) (r : df_row) : df_row :=
  mkRow (set_Model model (set_Brand brand (info r))) (SOURCE_URL r) (DRIVER_ID r).


(** What a computation does to the network: it sends the requests [l], in
    that order and after those already sent, and meets as many of the
    outcomes that were pending. *)
Definition sends {A : Type} (P : string -> Prop) (k : nat) (m : M A) : Prop :=
  forall w, exists l,
    (List.length l <= k)%nat /\ Forall P l
    /\ requested (snd (m w)) = (requested w ++ l)%list
    /\ pending (snd (m w)) = skipn (List.length l) (pending w).

(** * Properties *)

(** ** Texts *)


Lemma append_assoc (a b c : string) : (a ++ b) ++ c = a ++ b ++ c.
Proof. induction a as [|x a IH]; simpl; [reflexivity | now rewrite IH]. Qed.

Lemma length_append (a b : string) :
  String.length (a ++ b) = (String.length a + String.length b)%nat.
Proof. induction a as [|x a IH]; simpl; [reflexivity | now rewrite IH]. Qed.

(** ** Identity *)

Section Identity.
Import PyStr.











End Identity.



(** ** Price parsing *)

Section PriceParsing.
Import PyStr PyFloat.

Ltac ascii_cases c :=
  destruct c as [[] [] [] [] [] [] [] []]; vm_compute; try easy.

Lemma digit_not_sign (c : ascii) (r : string) :
  is_digit c = true -> parse_sign (String c r) = (false, String c r).
Proof. ascii_cases c. Qed.

Lemma point_not_sign (r : string) :
  parse_sign (String "." r) = (false, String "." r).
Proof. reflexivity. Qed.


(** *** Inputs without digits *)













End PriceParsing.

Section PriceAmounts.
Import PyStr PyFloat.

Ltac ascii_cases c :=
  destruct c as [[] [] [] [] [] [] [] []]; vm_compute; try easy.





Lemma remove_char_app (d : ascii) (a b : string) :
  remove_char d (a ++ b) = remove_char d a ++ remove_char d b.
Proof.
  induction a as [|c a IH]; simpl; [reflexivity|].
  destruct (Ascii.eqb d c); simpl; now rewrite IH.
Qed.




Lemma digits_of_nonempty (a : string) :
  existsb_char is_digit a = true -> digits_of a <> EmptyString.
Proof.
  unfold digits_of. induction a as [|c a IH]; simpl; [discriminate|].
  destruct (is_digit c); simpl; [discriminate|exact IH].
Qed.












Lemma existsb_char_digits_of (a : string) :
  existsb_char is_digit a = true -> digits_of a <> EmptyString.
Proof. apply digits_of_nonempty. Qed.


End PriceAmounts.




(** ** Fetcher *)

Section ScriptFetcher.
Import Snowpark.

Lemma pow2_sleepable (attempt : nat) :
  Qle_bool 0 (inject_Z (2 ^ Z.of_nat attempt)) = true.
Proof. apply Qle_bool_iff. unfold Qle. simpl. lia. Qed.

Lemma script_attempt_ok (url : string) (rc attempt : nat) (rest : list nat)
  (r : Response) (p : list outcome) (w : World) :
  pending w = Reply r :: p ->
  outcome_exn (Reply r) = None ->
  make_request_loop url rc (attempt :: rest) w
  = (Ok (Some r),
     mkWorld p (draws w) (requested w ++ [url]) (slept w ++ [2])).
Proof.
  intros Hp Hok. unfold outcome_exn in Hok.
  unfold make_request_loop, try_catch, bind, session_get, raise_for_status.
  rewrite Hp. revert Hok.
  destruct (Nat.leb 400 (status_code r) && Nat.ltb (status_code r) 600)%bool;
    [discriminate|].
  reflexivity.
Qed.

Lemma script_attempt_retry (url : string) (rc attempt : nat) (rest : list nat)
  (o : outcome) (p : list outcome) (w : World) :
  pending w = o :: p ->
  script_transient o = true ->
  attempt <> (rc - 1)%nat ->
  make_request_loop url rc (attempt :: rest) w
  = make_request_loop url rc rest
      (mkWorld p (draws w) (requested w ++ [url])
               (slept w ++ [Qred (inject_Z (2 ^ Z.of_nat attempt))])).
Proof.
  intros Hp Ht Hn. apply Nat.eqb_neq in Hn.
  unfold script_transient, outcome_exn in Ht.
  cbn [make_request_loop].
  unfold try_catch at 1, bind at 1, session_get at 1. rewrite Hp.
  pose proof (pow2_sleepable attempt) as Hpos.
  destruct o as [r|]; cbv beta iota.
  - unfold raise_for_status, bind. revert Ht.
    destruct (Nat.leb 400 (status_code r) && Nat.ltb (status_code r) 600)%bool;
      [intros _|discriminate].
    cbn [raise is_request_exception]. rewrite Hn. unfold bind, sleep.
    rewrite Hpos. reflexivity.
  - cbn [is_request_exception]. rewrite Hn. unfold bind, sleep.
    rewrite Hpos. reflexivity.
Qed.

Lemma script_attempt_last (url : string) (rc attempt : nat) (rest : list nat)
  (o : outcome) (e : exn) (p : list outcome) (w : World) :
  pending w = o :: p ->
  outcome_exn o = Some e ->
  attempt = (rc - 1)%nat ->
  make_request_loop url rc (attempt :: rest) w
  = (Raise e, mkWorld p (draws w) (requested w ++ [url]) (slept w)).
Proof.
  intros Hp He Hn. apply Nat.eqb_eq in Hn.
  cbn [make_request_loop].
  unfold try_catch at 1, bind at 1, session_get at 1. rewrite Hp.
  unfold outcome_exn in He.
  destruct o as [r|]; cbv beta iota.
  - unfold raise_for_status, bind. revert He.
    destruct (Nat.leb 400 (status_code r) && Nat.ltb (status_code r) 600)%bool;
      [intros He|discriminate].
    injection He as <-. cbn [raise is_request_exception]. rewrite Hn.
    reflexivity.
  - injection He as <-. cbn [is_request_exception]. rewrite Hn. reflexivity.
Qed.

(** Fewer failures than attempts, then a reply that is not an error. *)
Lemma script_loop_success (url : string) (rc : nat) (r : Response)
  (rest : list outcome) (fs : list outcome) :
  forall (a m : nat) (w : World),
    (a + m = rc)%nat ->
    (List.length fs < m)%nat ->
    forallb script_transient fs = true ->
    outcome_exn (Reply r) = None ->
    pending w = (fs ++ Reply r :: rest)%list ->
    make_request_loop url rc (seq a m) w
    = (Ok (Some r),
       mkWorld rest (draws w)
         (requested w ++ repeat url (S (List.length fs)))
         (slept w
            ++ map (fun i => Qred (inject_Z (2 ^ Z.of_nat i)))
                   (seq a (List.length fs))
            ++ [2])).
Proof.
  induction fs as [|f fs IH]; intros a m w Ham Hlen Hfs Hok Hp.
  - destruct m as [|m]; [simpl in Hlen; lia|].
    cbn [seq]. now rewrite (script_attempt_ok url rc a _ r rest w Hp Hok).
  - destruct m as [|m]; [simpl in Hlen; lia|].
    cbn [forallb] in Hfs. apply andb_true_iff in Hfs as [Hf Hfs].
    cbn [List.length] in Hlen.
    cbn [seq]. rewrite (script_attempt_retry url rc a _ f _ w Hp Hf) by lia.
    rewrite (IH (S a) m) by (try reflexivity; try assumption; lia).
    cbn [draws requested slept List.length repeat seq map].
    now rewrite <- !app_assoc.
Qed.

(** As many failures as attempts. *)
Lemma script_loop_exhausted (url : string) (rc : nat)
  (rest : list outcome) (fs : list outcome) :
  forall (a : nat) (w : World),
    fs <> [] ->
    (a + List.length fs = rc)%nat ->
    forallb script_transient fs = true ->
    pending w = (fs ++ rest)%list ->
    exists e,
      outcome_exn (last fs NoReply) = Some e
      /\ make_request_loop url rc (seq a (List.length fs)) w
         = (Raise e,
            mkWorld rest (draws w)
              (requested w ++ repeat url (List.length fs))
              (slept w
                 ++ map (fun i => Qred (inject_Z (2 ^ Z.of_nat i)))
                        (seq a (List.length fs - 1)))).
Proof.
  induction fs as [|f fs IH]; intros a w Hne Ha Hfs Hp; [contradiction|].
  cbn [forallb] in Hfs. apply andb_true_iff in Hfs as [Hf Hfs].
  destruct fs as [|f' fs].
  - unfold script_transient in Hf.
    destruct (outcome_exn f) as [e|] eqn:E; [|discriminate].
    exists e. split; [exact E|].
    cbn [List.length seq] in *.
    rewrite (script_attempt_last url rc a _ f e rest w Hp E) by lia.
    cbn. now rewrite app_nil_r.
  - destruct (IH (S a)
                (mkWorld (f' :: fs ++ rest) (draws w) (requested w ++ [url])
                   (slept w ++ [Qred (inject_Z (2 ^ Z.of_nat a))])))
      as (e & He & Hrun);
      [discriminate | cbn [List.length] in *; lia | exact Hfs | reflexivity |].
    exists e. split; [exact He|].
    cbn [List.length app] in *.
    cbn [seq]. rewrite (script_attempt_retry url rc a _ f _ w Hp Hf) by lia.
    cbn [seq] in Hrun. rewrite Hrun.
    cbn [draws requested slept repeat].
    replace (S (S (List.length fs)) - 1)%nat with (S (List.length fs)) by lia.
    replace (S (List.length fs) - 1)%nat with (List.length fs) by lia.
    cbn [seq map]. now rewrite <- !app_assoc.
Qed.

End ScriptFetcher.

Section DashboardFetcher.
Import Streamlit.

Variable url : string.
Variable rc : nat.
Variable base_delay : Z.
Hypothesis base_nonneg : (0 <= base_delay)%Z.

Lemma draws_ok_hd (w : World) :
  draws_ok w -> 0 <= hd 0 (draws w) /\ hd 0 (draws w) <= 1.
Proof.
  unfold draws_ok. destruct (draws w) as [|d ds]; simpl.
  - intros _. split; lra.
  - intros H. now inversion H.
Qed.



Lemma dash_delay_bounds (attempt : nat) (w : World) :
  draws_ok w ->
  inject_Z base_delay + inject_Z (Z.of_nat attempt * 2) + 1
    <= dash_delay base_delay attempt w
  /\ dash_delay base_delay attempt w
     <= inject_Z base_delay + inject_Z (Z.of_nat attempt * 2) + 3.
Proof.
  intros H. apply draws_ok_hd in H. unfold dash_delay, delay_of.
  split; lra.
Qed.

Lemma dash_delay_sleepable (attempt : nat) (w : World) :
  draws_ok w -> Qle_bool 0 (dash_delay base_delay attempt w) = true.
Proof.
  intros H. apply Qle_bool_iff.
  pose proof (dash_delay_bounds attempt w H) as [L _].
  assert (0 <= inject_Z base_delay) by (unfold Qle; simpl; lia).
  assert (0 <= inject_Z (Z.of_nat attempt * 2)) by (unfold Qle; simpl; lia).
  lra.
Qed.






(** An HTTP error other than 429 is raised at once, whatever the attempt. *)
Lemma dash_attempt_http_error (attempt : nat) (rest : list nat)
  (r : Response) (p : list outcome) (w : World) :
  draws_ok w ->
  pending w = Reply r :: p ->
  (400 <= status_code r < 600)%nat ->
  status_code r <> 429%nat ->
  make_request_loop url rc base_delay (attempt :: rest) w
  = (Raise (HTTPError (status_code r) (headers r)),
     mkWorld p (tl (draws w)) (requested w ++ [url])
             (slept w ++ [Qred (dash_delay base_delay attempt w)])).
Proof.
  intros Hd Hp Hst Hn.
  pose proof (dash_delay_sleepable attempt w Hd) as Hs.
  unfold dash_delay in *.
  cbn [make_request_loop].
  unfold bind at 1, uniform at 1. unfold try_catch at 1, bind at 1.
  unfold sleep at 1. rewrite Hs. cbv beta iota.
  unfold bind at 1, session_get at 1. cbn [pending requested draws slept].
  rewrite Hp. cbv beta iota. unfold bind at 1, raise_for_status at 1.
  assert (E : (Nat.leb 400 (status_code r) && Nat.ltb (status_code r) 600)%bool
              = true).
  { apply andb_true_iff. split; [apply Nat.leb_le | apply Nat.ltb_lt]; lia. }
  rewrite E. cbn [raise]. apply Nat.eqb_neq in Hn. rewrite Hn. reflexivity.
Qed.





End DashboardFetcher.




Section RateLimit.
Import Streamlit.



End RateLimit.




(** ** Pagination *)

Lemma extend_products_app (base : string) (elements : list node) :
  forall products,
    extend_products base products elements
    = (products ++ extend_products base [] elements)%list.
Proof.
  induction elements as [|e els IH]; intros products; simpl.
  - now rewrite app_nil_r.
  - destruct (parse_product base e) as [p|].
    + rewrite IH, (IH [p]). now rewrite <- app_assoc.
    + apply IH.
Qed.

Section Walk.
Variable fetch : string -> M (option Response).
Variable good : World -> Prop.
Variable transient : outcome -> bool.
Variable stop : nat -> bool.
Variable url_of : nat -> string.

Hypothesis fetch_ok :
  forall u w r p,
    good w -> pending w = Reply r :: p -> outcome_exn (Reply r) = None ->
    exists w1, fetch u w = (Ok (Some r), w1)
               /\ pending w1 = p
               /\ requested w1 = (requested w ++ [u])%list
               /\ good w1.

Hypothesis fetch_fails :
  forall u w f1 f2 f3 rest,
    good w -> forallb transient [f1; f2; f3] = true ->
    pending w = f1 :: f2 :: f3 :: rest ->
    exists e w1, fetch u w = (Raise e, w1)
                 /\ pending w1 = rest
                 /\ requested w1 = (requested w ++ [u; u; u])%list.





End Walk.

Section FrontEnds.

Lemma dashboard_loop_is_walk (url : string) (max_pages : nat) (fuel : nat) :
  forall cp products w,
    Streamlit.scrape_loop fuel url max_pages cp products w
    = walk Streamlit.make_request (fun cp => negb (Nat.leb cp max_pages))
           (Streamlit.page_url url) fuel cp products w.
Proof.
  induction fuel as [|fuel IH]; intros cp products w; cbn [Streamlit.scrape_loop walk];
    destruct (Nat.leb cp max_pages); cbn [negb]; try reflexivity.
  change (Streamlit.scrape_page url cp products)
    with (visit Streamlit.make_request (Streamlit.page_url url cp) products).
  unfold bind. destruct (visit _ _ _ w) as [[[[|] ps]|e] w1]; try reflexivity.
  apply IH.
Qed.

Lemma script_loop_is_walk (url : string) (MAX_PAGES : option nat) (fuel : nat) :
  forall cp products w,
    Snowpark.scrape_loop fuel url MAX_PAGES cp products w
    = walk Snowpark._make_request (Snowpark.limit_reached MAX_PAGES)
           (Snowpark.page_url url) fuel cp products w.
Proof.
  induction fuel as [|fuel IH]; intros cp products w; cbn [Snowpark.scrape_loop walk];
    destruct (Snowpark.limit_reached MAX_PAGES cp); try reflexivity.
  change (Snowpark.scrape_page url cp products)
    with (visit Snowpark._make_request (Snowpark.page_url url cp) products).
  unfold bind. destruct (visit _ _ _ w) as [[[[|] ps]|e] w1]; try reflexivity.
  apply IH.
Qed.






End FrontEnds.



(** The run of the specification: three pages are read, the fourth is never
    requested, and the frame holds the four records of pages 1 to 3, the
    unpriced one last. *)
Example scrape_three_pages_of_ten :
  let url := "https://www.2ndswing.com/golf-clubs/drivers" in
  let run := Streamlit.scrape_products 10 url 10 (fresh_world three_pages []) in
  option_map (fun df => map (fun r => Brand (info r)) (rows df))
    match fst run with Ok df => df | Raise _ => None end
  = Some ["Titleist"; "Callaway"; "Ping"; "Cobra"]
  /\ requested (snd run) = [url; url ++ "?p=2"; url ++ "?p=3"]
  /\ pending (snd run) = [Reply page4].
Proof.
  vm_compute. repeat split.
Qed.

(** ** Extraction *)

Section Extraction.







End Extraction.




(** What [parse_product] reads on a complete listing element. *)
Example parse_complete_listing :
  parse_product BASE_URL complete_listing
  = Some (mkProduct "Callaway" "Rogue ST Max Driver" (Some (Fin (2469 # 2)))
            "Mint" "Right" "10.5" "Stiff" "Tensei AV Blue"
            "https://www.2ndswing.com/callaway-rogue").
Proof. reflexivity. Qed.

(** ** Ordering *)

Section Ordering.

(** *** The three laws of a comparison, for each key *)

Lemma ascii_compare_lt_trans (a b c : ascii) :
  Ascii.compare a b = Lt -> Ascii.compare b c = Lt -> Ascii.compare a c = Lt.
Proof.
  unfold Ascii.compare. rewrite !N.compare_lt_iff. lia.
Qed.

Lemma string_compare_refl (s : string) : String.compare s s = Eq.
Proof.
  induction s as [|c s IH]; [reflexivity|]. simpl.
  unfold Ascii.compare. now rewrite N.compare_refl.
Qed.

Lemma string_compare_eq_l (a b c : string) :
  String.compare a b = Eq -> String.compare a c = String.compare b c.
Proof. intros H. apply String.compare_eq_iff in H. now subst. Qed.

Lemma string_compare_lt_trans (a : string) :
  forall b c,
    String.compare a b = Lt -> String.compare b c = Lt ->
    String.compare a c = Lt.
Proof.
  induction a as [|x a IH]; intros [|y b] [|z c]; simpl; try easy.
  destruct (Ascii.compare x y) eqn:Exy; try discriminate;
    destruct (Ascii.compare y z) eqn:Eyz; try discriminate; intros H1 H2.
  - apply Ascii.compare_eq_iff in Exy, Eyz. subst.
    unfold Ascii.compare at 1. rewrite N.compare_refl. now apply (IH b c).
  - apply Ascii.compare_eq_iff in Exy. subst. now rewrite Eyz.
  - apply Ascii.compare_eq_iff in Eyz. subst. now rewrite Exy.
  - now rewrite (ascii_compare_lt_trans x y z Exy Eyz).
Qed.

Lemma price_compare_antisym (p q : option pyfloat) :
  price_compare_desc p q = CompOpp (price_compare_desc q p).
Proof.
  destruct p as [[a| | |]|], q as [[b| | |]|]; try reflexivity.
  cbn. symmetry. apply Qcompare_antisym.
Qed.

Lemma price_compare_eq_l (p q r : option pyfloat) :
  price_compare_desc p q = Eq ->
  price_compare_desc p r = price_compare_desc q r.
Proof.
  destruct p as [[a| | |]|], q as [[b| | |]|]; cbn; try discriminate;
    try reflexivity;
    destruct r as [[c| | |]|]; cbn; try reflexivity.
  intros H. apply Qeq_alt in H. now rewrite H.
Qed.

Lemma price_compare_lt_trans (p q r : option pyfloat) :
  price_compare_desc p q = Lt -> price_compare_desc q r = Lt ->
  price_compare_desc p r = Lt.
Proof.
  destruct p as [[a| | |]|], q as [[b| | |]|]; cbn; try discriminate;
    destruct r as [[c| | |]|]; cbn; try discriminate; try reflexivity.
  rewrite <- !Qlt_alt. intros H1 H2. now apply (Qlt_trans c b a).
Qed.

(** *** The laws for the order of the rows *)

Lemma row_compare_antisym (r1 r2 : df_row) :
  row_compare r1 r2 = CompOpp (row_compare r2 r1).
Proof.
  unfold row_compare.
  rewrite (price_compare_antisym (Price (info r1))).
  rewrite (String.compare_antisym (Brand (info r1))).
  now destruct (price_compare_desc _ _).
Qed.

Lemma row_compare_eq_l (r1 r2 r3 : df_row) :
  row_compare r1 r2 = Eq -> row_compare r1 r3 = row_compare r2 r3.
Proof.
  unfold row_compare.
  destruct (price_compare_desc (Price (info r1)) (Price (info r2))) eqn:E;
    try discriminate.
  intros H. rewrite (price_compare_eq_l _ _ (Price (info r3)) E).
  now rewrite (string_compare_eq_l _ _ (Brand (info r3)) H).
Qed.

Lemma row_compare_lt_trans (r1 r2 r3 : df_row) :
  row_compare r1 r2 = Lt -> row_compare r2 r3 = Lt -> row_compare r1 r3 = Lt.
Proof.
  unfold row_compare.
  destruct (price_compare_desc (Price (info r1)) (Price (info r2))) eqn:E12;
    try discriminate;
    destruct (price_compare_desc (Price (info r2)) (Price (info r3))) eqn:E23;
    try discriminate; intros H1 H2.
  - rewrite (price_compare_eq_l _ _ _ E12), E23.
    now apply (string_compare_lt_trans _ _ _ H1 H2).
  - now rewrite (price_compare_eq_l _ _ _ E12), E23.
  - assert (E32 : price_compare_desc (Price (info r3)) (Price (info r2)) = Eq).
    { rewrite price_compare_antisym, E23. reflexivity. }
    assert (X : price_compare_desc (Price (info r3)) (Price (info r1)) = Gt).
    { rewrite (price_compare_eq_l _ _ _ E32), price_compare_antisym, E12.
      reflexivity. }
    rewrite price_compare_antisym, X. reflexivity.
  - now rewrite (price_compare_lt_trans _ _ _ E12 E23).
Qed.

Lemma row_compare_refl (r : df_row) : row_compare r r = Eq.
Proof.
  unfold row_compare.
  assert (E : price_compare_desc (Price (info r)) (Price (info r)) = Eq).
  { destruct (Price (info r)) as [[a| | |]|]; try reflexivity.
    cbn. apply Qeq_alt. reflexivity. }
  rewrite E. apply string_compare_refl.
Qed.

Lemma row_leb_total (r1 r2 : df_row) :
  row_leb r1 r2 = false -> row_leb r2 r1 = true.
Proof.
  unfold row_leb. rewrite (row_compare_antisym r2 r1).
  now destruct (row_compare r1 r2).
Qed.

Lemma row_leb_trans (r1 r2 r3 : df_row) :
  row_leb r1 r2 = true -> row_leb r2 r3 = true -> row_leb r1 r3 = true.
Proof.
  unfold row_leb.
  destruct (row_compare r1 r2) eqn:E12; try discriminate;
    destruct (row_compare r2 r3) eqn:E23; try discriminate; intros _ _.
  - now rewrite (row_compare_eq_l _ _ _ E12), E23.
  - now rewrite (row_compare_eq_l _ _ _ E12), E23.
  - assert (E32 : row_compare r3 r2 = Eq)
      by (rewrite row_compare_antisym, E23; reflexivity).
    rewrite row_compare_antisym, (row_compare_eq_l _ _ _ E32),
      row_compare_antisym, E12. reflexivity.
  - now rewrite (row_compare_lt_trans _ _ _ E12 E23).
Qed.

Lemma same_keys_join (k r x : df_row) :
  same_keys k r = true -> same_keys k x = true -> row_compare r x = Eq.
Proof.
  unfold same_keys.
  destruct (row_compare k r) eqn:E1; try discriminate.
  destruct (row_compare k x) eqn:E2; try discriminate. intros _ _.
  now rewrite <- (row_compare_eq_l _ _ _ E1).
Qed.

(** *** The sort *)

Lemma insert_row_perm (r : df_row) (l : list df_row) :
  Permutation (insert_row_sorted r l) (r :: l).
Proof.
  induction l as [|x l IH]; simpl; [reflexivity|].
  destruct (row_leb r x); [reflexivity|].
  rewrite IH. apply perm_swap.
Qed.

Lemma stable_sort_perm (l : list df_row) : Permutation (stable_sort l) l.
Proof.
  induction l as [|r l IH]; simpl; [reflexivity|].
  rewrite insert_row_perm. now constructor.
Qed.

Lemma insert_row_ordered (r : df_row) (l : list df_row) :
  StronglySorted (fun a b => row_leb a b = true) l ->
  StronglySorted (fun a b => row_leb a b = true) (insert_row_sorted r l).
Proof.
  induction 1 as [|x l Hs IH Hx]; simpl.
  - constructor; constructor.
  - destruct (row_leb r x) eqn:E.
    + constructor; [now constructor|]. constructor; [exact E|].
      eapply Forall_impl; [|exact Hx]. intros y Hy.
      now apply (row_leb_trans r x y).
    + constructor; [exact IH|].
      apply (Permutation_Forall (Permutation_sym (insert_row_perm r l))).
      constructor; [now apply row_leb_total | exact Hx].
Qed.

Lemma stable_sort_ordered (l : list df_row) :
  StronglySorted (fun a b => row_leb a b = true) (stable_sort l).
Proof.
  induction l as [|r l IH]; simpl; [constructor|].
  now apply insert_row_ordered.
Qed.

Lemma insert_row_stable (k r : df_row) (l : list df_row) :
  filter (same_keys k) (insert_row_sorted r l) = filter (same_keys k) (r :: l).
Proof.
  induction l as [|x l IH]; [reflexivity|].
  cbn [insert_row_sorted]. destruct (row_leb r x) eqn:E; [reflexivity|].
  cbn [filter] in *. rewrite IH.
  destruct (same_keys k r) eqn:Er, (same_keys k x) eqn:Ex; try reflexivity.
  exfalso. pose proof (same_keys_join k r x Er Ex) as J.
  unfold row_leb in E. now rewrite J in E.
Qed.

Lemma stable_sort_stable (k : df_row) (l : list df_row) :
  filter (same_keys k) (stable_sort l) = filter (same_keys k) l.
Proof.
  induction l as [|r l IH]; [reflexivity|].
  cbn [stable_sort fold_right]. fold (stable_sort l).
  rewrite insert_row_stable. cbn [filter]. now rewrite IH.
Qed.

End Ordering.

(** ** Reconciliation *)

Section Bags.
Context {A : Type}.

Lemma filter_perm (keep : A -> bool) (xs ys : list A) :
  Permutation xs ys -> Permutation (filter keep xs) (filter keep ys).
Proof.
  induction 1 as [|x l l' _ IH|x y l|l l' l'' _ IH1 _ IH2]; cbn [filter].
  - constructor.
  - destruct (keep x); [now constructor | exact IH].
  - destruct (keep x), (keep y); try reflexivity. apply perm_swap.
  - now transitivity (filter keep l').
Qed.

Lemma filter_none (f : A -> bool) (l : list A) :
  (forall x, In x l -> f x = false) -> filter f l = [].
Proof.
  induction l as [|x l IH]; intros H; cbn [filter]; [reflexivity|].
  rewrite (H x) by now left. apply IH. intros y Hy. apply H. now right.
Qed.

Lemma existsb_perm (f : A -> bool) (l l' : list A) :
  Permutation l l' -> existsb f l = existsb f l'.
Proof.
  induction 1 as [|x l l' _ IH|x y l|l l' l'' _ IH1 _ IH2]; cbn [existsb].
  - reflexivity.
  - now rewrite IH.
  - now destruct (f x), (f y).
  - congruence.
Qed.

Lemma singleton_case_perm {B : Type} (f : A -> B) (d : B) (l l' : list A) :
  Permutation l l' ->
  match l with [s] => f s | _ => d end
  = match l' with [s] => f s | _ => d end.
Proof.
  intros H. pose proof (Permutation_length H) as L.
  destruct l as [|a [|b l]].
  - destruct l'; [reflexivity | discriminate].
  - apply Permutation_length_1_inv in H. now subst.
  - destruct l' as [|a' [|b' l']]; try discriminate. reflexivity.
Qed.

End Bags.

Section Merge.
Import Warehouse.

Variable now : Z.

Lemma merge_row_keeps_key (source : list source_row) (t : stored_row) :
  DRIVER_ID (merge_row now source t) = DRIVER_ID t.
Proof.
  unfold merge_row. now destruct (update_candidates t source) as [|s [|]].
Qed.




Lemma merge_into_shape (target table : list stored_row)
  (source : list source_row) :
  merge_into now target source = Some table ->
  table = (map (merge_row now source) target
           ++ map (inserted now) (filter (unmatched target) source))%list
  /\ forallb (fun t => negb (ambiguous source t)) target = true.
Proof.
  unfold merge_into. destruct (existsb (ambiguous source) target) eqn:E;
    [discriminate|].
  intros [= <-]. split; [reflexivity|].
  apply forallb_forall. intros t Ht. apply negb_true_iff.
  destruct (ambiguous source t) eqn:F; [|reflexivity].
  assert (X : existsb (ambiguous source) target = true)
    by (apply existsb_exists; eauto).
  congruence.
Qed.

(** A batch in which no identity comes twice is always accepted. *)
Lemma merge_into_accepts (target : list stored_row) (source : list source_row) :
  NoDup (map s_DRIVER_ID source) ->
  merge_into now target source <> None.
Proof.
  intros Hnd. unfold merge_into.
  destruct (existsb (ambiguous source) target) eqn:E; [|discriminate].
  exfalso. apply existsb_exists in E as (t & _ & Ha).
  unfold ambiguous in Ha. apply Nat.leb_le in Ha.
  assert (Hk : forall s, In s (update_candidates t source) ->
                         s_DRIVER_ID s = DRIVER_ID t).
  { intros s Hs. apply filter_In in Hs as [_ Hb].
    apply andb_true_iff in Hb as [Hb _]. unfold on_key in Hb.
    apply String.eqb_eq in Hb. now symmetry. }
  assert (Hnd' : NoDup (map s_DRIVER_ID (update_candidates t source))).
  { clear Ha Hk. unfold update_candidates.
    induction source as [|s l IH]; cbn [filter map]; [constructor|].
    cbn [map] in Hnd. inversion Hnd as [|? ? Hnin Hl]; subst.
    destruct (on_key t s && sql_neq (PRICE t) (s_PRICE s))%bool;
      [|now apply IH].
    cbn [map]. constructor; [|now apply IH].
    intros Hin. apply Hnin. apply in_map_iff in Hin as (s' & <- & Hs').
    apply in_map. apply filter_In in Hs'. tauto. }
  destruct (update_candidates t source) as [|s1 [|s2 l]]; cbn in Ha; try lia.
  cbn [map] in Hnd'. inversion Hnd' as [|? ? Hnin _]; subst.
  apply Hnin. left.
  rewrite (Hk s1), (Hk s2); [reflexivity | right; now left | now left].
Qed.

(** After the MERGE every source row finds its identity in the table. *)
Lemma merged_source_is_matched (target table : list stored_row)
  (source : list source_row) (s : source_row) :
  merge_into now target source = Some table ->
  In s source -> unmatched table s = false.
Proof.
  intros Hm Hs. apply merge_into_shape in Hm as [-> _].
  unfold unmatched. apply negb_false_iff. rewrite existsb_app.
  destruct (unmatched target s) eqn:U.
  - apply orb_true_iff. right. apply existsb_exists.
    exists (inserted now s). split.
    + apply in_map, filter_In. auto.
    + unfold on_key. cbn. apply String.eqb_refl.
  - apply orb_true_iff. left. unfold unmatched in U.
    apply negb_false_iff, existsb_exists in U as (t & Ht & Hk).
    apply existsb_exists. exists (merge_row now source t). split.
    + now apply in_map.
    + unfold on_key in *. now rewrite merge_row_keeps_key.
Qed.

Lemma count_new_after_merge (target table : list stored_row)
  (source : list source_row) :
  merge_into now target source = Some table ->
  count_new table source = 0%nat.
Proof.
  intros Hm. unfold count_new.
  rewrite (filter_none (unmatched table) source); [reflexivity|].
  intros s Hs. now apply (merged_source_is_matched target table source).
Qed.

End Merge.

Lemma sql_neq_same (p : option pyfloat) : Warehouse.sql_neq p p = false.
Proof.
  destruct p as [[q| | |]|]; try reflexivity.
  cbn. assert (E : Qcompare q q = Eq) by (apply Qeq_alt; reflexivity).
  now rewrite E.
Qed.





Section MergeOrder.
Import Warehouse.

Lemma source_of_rows_perm (l l' : list df_row) :
  Permutation l l' ->
  (source_of_rows l = None /\ source_of_rows l' = None)
  \/ exists a b, source_of_rows l = Some a /\ source_of_rows l' = Some b
                 /\ Permutation a b.
Proof.
  induction 1 as [|x l l' _ IH|x y l|l l' l'' _ IH1 _ IH2].
  - right. exists [], []. auto.
  - cbn [source_of_rows]. destruct (source_of_row x) as [s|].
    + destruct IH as [[-> ->]|(a & b & -> & -> & Hp)]; [now left|].
      right. exists (s :: a), (s :: b). auto.
    + left. now destruct (source_of_rows l), (source_of_rows l').
  - cbn [source_of_rows].
    destruct (source_of_row x) as [sx|], (source_of_row y) as [sy|],
      (source_of_rows l) as [a|]; try (now left).
    right. exists (sy :: sx :: a), (sx :: sy :: a).
    split; [reflexivity|]. split; [reflexivity|]. apply perm_swap.
  - destruct IH1 as [[E1 E2]|(a & b & E1 & E2 & Hp)].
    + destruct IH2 as [[_ E3]|(b' & c & E2' & _)]; [now left|congruence].
    + destruct IH2 as [[E2' _]|(b' & c & E2' & E3 & Hp')]; [congruence|].
      right. exists a, c. split; [exact E1|]. split; [exact E3|].
      assert (b = b') by congruence. subst. now transitivity b'.
Qed.

Lemma merge_row_perm (now : Z) (src src' : list source_row) (t : stored_row) :
  Permutation src src' -> merge_row now src t = merge_row now src' t.
Proof.
  intros H. unfold merge_row.
  apply (singleton_case_perm (updated now t) t).
  now apply filter_perm.
Qed.

Lemma ambiguous_perm (src src' : list source_row) (t : stored_row) :
  Permutation src src' -> ambiguous src t = ambiguous src' t.
Proof.
  intros H. unfold ambiguous. f_equal.
  apply Permutation_length. now apply filter_perm.
Qed.

(** The MERGE does not depend on the order of the batch. *)
Lemma merge_into_perm (now : Z) (tgt : list stored_row)
  (src src' : list source_row) :
  Permutation src src' ->
  (merge_into now tgt src = None /\ merge_into now tgt src' = None)
  \/ exists a b, merge_into now tgt src = Some a
                 /\ merge_into now tgt src' = Some b /\ Permutation a b.
Proof.
  intros H. unfold merge_into.
  assert (E : existsb (ambiguous src) tgt = existsb (ambiguous src') tgt).
  { induction tgt as [|t l IH]; [reflexivity|]. cbn [existsb].
    now rewrite IH, (ambiguous_perm src src' t H). }
  rewrite <- E. destruct (existsb (ambiguous src) tgt); [now left|].
  right. eexists _, _. split; [reflexivity|]. split; [reflexivity|].
  apply Permutation_app.
  - rewrite (map_ext _ _ (fun t => merge_row_perm now src src' t H)).
    reflexivity.
  - apply Permutation_map. now apply filter_perm.
Qed.

Lemma counts_perm (t t' : list stored_row) (s s' : list source_row) :
  Permutation t t' -> Permutation s s' ->
  count_new t s = count_new t' s' /\ count_updated t s = count_updated t' s'.
Proof.
  intros Ht Hs. split.
  - unfold count_new.
    rewrite (filter_ext (unmatched t) (unmatched t')).
    + apply Permutation_length. now apply filter_perm.
    + intros x. unfold unmatched. f_equal. now apply existsb_perm.
  - unfold count_updated.
    rewrite (map_ext
               (fun x => List.length
                           (filter (fun y => (on_key y x
                                              && sql_neq (PRICE y) (s_PRICE x))%bool)
                                   t))
               (fun x => List.length
                           (filter (fun y => (on_key y x
                                              && sql_neq (PRICE y) (s_PRICE x))%bool)
                                   t'))).
    + apply Permutation_list_sum. now apply Permutation_map.
    + intros x. apply Permutation_length. now apply filter_perm.
Qed.

(** Two frames with the same columns and the same rows in another order
    are uploaded alike. *)
Lemma upload_perm (now : Z) (tgt : list stored_row) (df df' : DataFrame) :
  columns df = columns df' ->
  Permutation (rows df) (rows df') ->
  match upload_to_snowflake now tgt df, upload_to_snowflake now tgt df' with
  | Some (t1, r1), Some (t2, r2) => Permutation t1 t2 /\ r1 = r2
  | None, None => True
  | _, _ => False
  end.
Proof.
  intros Hc Hr. unfold upload_to_snowflake, source_of_frame. rewrite <- Hc.
  destruct (forallb _ renamed_columns); [|exact I].
  destruct (source_of_rows_perm _ _ Hr) as [[-> ->]|(a & b & -> & -> & Hp)];
    [exact I|].
  destruct (merge_into_perm now tgt a b Hp) as [[-> ->]|(x & y & -> & -> & Hxy)];
    [exact I|].
  split; [exact Hxy|].
  destruct (counts_perm x y a b Hxy Hp) as [-> ->]. reflexivity.
Qed.

End MergeOrder.

(** C2: what the code reports for a first batch.  Against an empty table,
    the upload of a batch of one new record inserts the row and then reports
    0 new records and 0 updated ones: the two counts are read after the
    MERGE, when the identity is already in the table. *)
Theorem first_upload_reports_nothing_new :
  let df := finish_frame "https://www.2ndswing.com/golf-clubs/drivers" one_club in
  df_len df = 1%nat
  /\ option_map (fun r => (List.length (fst r), snd r))
       (Warehouse.upload_to_snowflake 7 [] df)
     = Some (1%nat, Warehouse.mkReport 0 0)
  /\ option_map snd
       (Warehouse.upload_to_snowflake 8
          (match Warehouse.upload_to_snowflake 7 [] df with
           | Some r => fst r
           | None => []
           end) df)
     = Some (Warehouse.mkReport 0 0).
Proof.
  vm_compute. repeat split.
Qed.

Section Presentation.

Lemma rows_tagged (url : string) (products : list product_info) :
  rows (tagged_frame url products)
  = map (fun p => mkRow p (Some url)
                    (Some (create_driver_id (mkRow p (Some url) None))))
        products.
Proof.
  unfold tagged_frame, assign_DRIVER_ID, assign_SOURCE_URL, DataFrame_of.
  cbn [rows]. rewrite !map_map. reflexivity.
Qed.

Lemma finish_frame_nonempty (url : string) (products : list product_info) :
  products <> [] ->
  finish_frame url products = sort_values (tagged_frame url products).
Proof.
  destruct products as [|p l]; [contradiction|]. intros _. reflexivity.
Qed.

Lemma row_leb_meaning (r1 r2 : df_row) :
  row_leb r1 r2 = true ->
  (forall a b,
      Price (info r1) = Some (Fin a) -> Price (info r2) = Some (Fin b) ->
      b <= a
      /\ (a == b -> String.leb (Brand (info r1)) (Brand (info r2)) = true))
  /\ (isna (Price (info r1)) = true -> isna (Price (info r2)) = true).
Proof.
  unfold row_leb, row_compare. intros H. split.
  - intros a b Ha Hb. rewrite Ha, Hb in H. cbn in H.
    destruct (Qcompare_spec b a) as [E|E|E].
    + split; [rewrite E; apply Qle_refl|]. intros _. unfold String.leb.
      now destruct (String.compare _ _).
    + split; [now apply Qlt_le_weak|]. intros E'. rewrite E' in E.
      now apply Qlt_irrefl in E.
    + discriminate.
  - intros Hn. unfold price_compare_desc in H. rewrite Hn in H.
    now destruct (isna (Price (info r2))).
Qed.

End Presentation.

(** C9.  The rows of the frame of a batch that is not empty are the tagged
    rows in the order of a stable sort: by price from the highest down with
    the missing prices last, then by brand upward, rows with equal keys in
    the order they were scraped.  The sort moves rows and changes none: each
    row still carries the identity computed from its own fields, and the
    upload of the sorted frame gives the table and the counts that the
    upload of the unsorted frame gives, the table up to the order of its
    rows. *)
Theorem sort_is_presentation_only (url : string) (products : list product_info) :
  products <> [] ->
  let df := finish_frame url products in
  let unsorted := tagged_frame url products in
  StronglySorted (fun a b => row_leb a b = true) (rows df)
  /\ (forall r1 r2,
        row_leb r1 r2 = true ->
        (forall a b,
            Price (info r1) = Some (Fin a) -> Price (info r2) = Some (Fin b) ->
            b <= a
            /\ (a == b -> String.leb (Brand (info r1)) (Brand (info r2)) = true))
        /\ (isna (Price (info r1)) = true -> isna (Price (info r2)) = true))
  /\ (forall k, filter (same_keys k) (rows df)
                = filter (same_keys k) (rows unsorted))
  /\ Permutation (rows df) (rows unsorted)
  /\ columns df = columns unsorted
  /\ Forall (fun r => DRIVER_ID r = Some (create_driver_id r)
                      /\ SOURCE_URL r = Some url) (rows df)
  /\ (forall now target,
        match Warehouse.upload_to_snowflake now target df,
              Warehouse.upload_to_snowflake now target unsorted with
        | Some (t1, r1), Some (t2, r2) => Permutation t1 t2 /\ r1 = r2
        | None, None => True
        | _, _ => False
        end).
Proof.
  intros Hne df unsorted. subst df unsorted.
  rewrite (finish_frame_nonempty url products Hne).
  unfold sort_values. cbn [rows columns].
  split; [apply stable_sort_ordered|].
  split; [apply row_leb_meaning|].
  split; [intros k; apply stable_sort_stable|].
  split; [apply stable_sort_perm|].
  split; [reflexivity|].
  split.
  - apply (Permutation_Forall (Permutation_sym (stable_sort_perm _))).
    rewrite rows_tagged. apply Forall_forall. intros r Hr.
    apply in_map_iff in Hr as (p & <- & _). cbn. split; reflexivity.
  - intros now target.
    apply (upload_perm now target
             (mkFrame (columns (tagged_frame url products))
                      (stable_sort (rows (tagged_frame url products))))
             (tagged_frame url products) eq_refl).
    apply stable_sort_perm.
Qed.

Lemma sort_is_presentation_only_witness :
  Permutation
    (rows (finish_frame "u" (flat_map page_records [page1; page2; page3])))
    (rows (tagged_frame "u" (flat_map page_records [page1; page2; page3]))).
Proof.
  exact (proj1 (proj2 (proj2 (proj2
           (sort_is_presentation_only "u"
              (flat_map page_records [page1; page2; page3])
              ltac:(vm_compute; discriminate)))))).
Defined.

(** The order of the rows of the three pages: the price of 1234.50 first,
    the unpriced record last. *)
Example sorted_brands_of_three_pages :
  map (fun r => Brand (info r))
      (rows (finish_frame "u" (flat_map page_records [page1; page2; page3])))
  = ["Titleist"; "Callaway"; "Ping"; "Cobra"].
Proof. vm_compute. reflexivity. Qed.

(** C10.  A run that collects no record returns a frame without any column:
    neither [SOURCE_URL] nor [DRIVER_ID] is there, and the header written to
    the CSV file is empty, while a run that collects records returns the nine
    scraped columns followed by these two.  Whatever the run, a frame that
    [scrape_products] returns without rows has no column. *)
Theorem empty_run_has_no_columns (url : string) :
  columns (finish_frame url []) = []
  /\ rows (finish_frame url []) = []
  /\ ~ In "SOURCE_URL" (columns (finish_frame url []))
  /\ ~ In "DRIVER_ID" (columns (finish_frame url []))
  /\ csv_header (finish_frame url []) = ""
  /\ (forall products,
        products <> [] ->
        columns (finish_frame url products)
        = (product_keys ++ ["SOURCE_URL"; "DRIVER_ID"])%list)
  /\ (forall fuel max_pages w df w',
        Streamlit.scrape_products fuel url max_pages w = (Ok (Some df), w') ->
        rows df = [] -> columns df = [] /\ csv_header df = "")
  /\ (forall fuel MAX_PAGES w df w',
        Snowpark.scrape_products fuel url MAX_PAGES w = (Ok (Some df), w') ->
        rows df = [] -> columns df = [] /\ csv_header df = "").
Proof.
  assert (Hrows : forall products, rows (finish_frame url products) = [] ->
                                   products = []).
  { intros [|p l]; [reflexivity|]. intros H. exfalso.
    rewrite finish_frame_nonempty in H by discriminate.
    unfold sort_values in H. cbn [rows] in H.
    pose proof (Permutation_length (stable_sort_perm
                                      (rows (tagged_frame url (p :: l))))) as L.
    rewrite H, rows_tagged in L. discriminate L. }
  split; [reflexivity|]. split; [reflexivity|].
  split; [intros []|]. split; [intros []|]. split; [reflexivity|].
  split; [|split].
  - intros [|p l] H; [contradiction|]. reflexivity.
  - intros fuel max_pages w df w'. unfold Streamlit.scrape_products, bind.
    destruct (Streamlit.scrape_loop fuel url max_pages 1 [] w)
      as [[[products|]|e] w1]; cbn; try discriminate.
    intros [= <- _] Hr. apply Hrows in Hr. subst. split; reflexivity.
  - intros fuel MAX w df w'. unfold Snowpark.scrape_products, bind.
    destruct (Snowpark.scrape_loop fuel url MAX 1 [] w)
      as [[[products|]|e] w1]; cbn; try discriminate.
    intros [= <- _] Hr. apply Hrows in Hr. subst. split; reflexivity.
Qed.

Lemma empty_run_has_no_columns_witness :
  columns (finish_frame "u" one_club)
  = (product_keys ++ ["SOURCE_URL"; "DRIVER_ID"])%list.
Proof.
  apply (proj1 (proj2 (proj2 (proj2 (proj2 (proj2
           (empty_run_has_no_columns "u"))))))). discriminate.
Defined.

(** * Further properties of the code *)

(** ** The upload and its report *)

Section UploadReport.
Import Warehouse.

Lemma same_identity_same_row (source : list source_row) (s s' : source_row) :
  NoDup (map s_DRIVER_ID source) ->
  In s source -> In s' source -> s_DRIVER_ID s = s_DRIVER_ID s' -> s = s'.
Proof.
  induction source as [|x l IH]; cbn [map]; intros Hnd Hs Hs' E; [contradiction|].
  inversion Hnd as [|? ? Hx Hl]; subst.
  destruct Hs as [->|Hs], Hs' as [->|Hs'].
  - reflexivity.
  - exfalso. apply Hx. rewrite E. now apply in_map.
  - exfalso. apply Hx. rewrite <- E. now apply in_map.
  - now apply IH.
Qed.

(** Once a batch without repeated identity is merged, no row of the table
    has a price that differs from the price of the batch. *)
Lemma candidates_after_merge (now : Z) (target table : list stored_row)
  (source : list source_row) (t' : stored_row) :
  NoDup (map s_DRIVER_ID source) ->
  merge_into now target source = Some table ->
  In t' table -> update_candidates t' source = [].
Proof.
  intros Hnd Hm Ht'. apply merge_into_shape in Hm as [-> Hamb].
  assert (Hone : forall s0 price,
             In s0 source -> s_PRICE s0 = price ->
             forall t0, DRIVER_ID t0 = s_DRIVER_ID s0 -> PRICE t0 = price ->
                        update_candidates t0 source = []).
  { intros s0 price Hs0 Hprice t0 Hid Hp. apply filter_none.
    intros s Hs. destruct (on_key t0 s) eqn:K; [|reflexivity]. cbn.
    unfold on_key in K. apply String.eqb_eq in K.
    assert (s = s0).
    { apply (same_identity_same_row source); auto. congruence. }
    subst s. rewrite Hp, <- Hprice. apply sql_neq_same. }
  apply in_app_or in Ht' as [Ht'|Ht'].
  - apply in_map_iff in Ht' as (t & <- & Ht).
    assert (Ha : ambiguous source t = false).
    { apply negb_true_iff. exact (proj1 (forallb_forall _ _) Hamb t Ht). }
    unfold ambiguous in Ha. apply Nat.leb_gt in Ha.
    unfold merge_row.
    destruct (update_candidates t source) as [|s0 [|s1 l]] eqn:E;
      [exact E | | cbn in Ha; lia].
    assert (Hs0 : In s0 (update_candidates t source)) by (rewrite E; now left).
    apply filter_In in Hs0 as [Hin Hb]. apply andb_true_iff in Hb as [K _].
    unfold on_key in K. apply String.eqb_eq in K.
    apply (Hone s0 (s_PRICE s0) Hin eq_refl); [exact K | reflexivity].
  - apply in_map_iff in Ht' as (s0 & <- & Hs0). apply filter_In in Hs0 as [Hin _].
    apply (Hone s0 (s_PRICE s0) Hin eq_refl); reflexivity.
Qed.

Lemma list_sum_zero {A : Type} (f : A -> nat) (l : list A) :
  (forall x, In x l -> f x = 0%nat) -> list_sum (map f l) = 0%nat.
Proof.
  induction l as [|x l IH]; intros H; [reflexivity|].
  cbn [map list_sum]. rewrite (H x) by now left.
  apply IH. intros y Hy. apply H. now right.
Qed.

End UploadReport.

(** X1.  Whatever the table and the frame, an upload that succeeds reports
    0 new records: the count is read after the MERGE, when every identity of
    the batch is in the table. *)
Theorem upload_never_reports_new_records (now : Z)
  (GOLF_DRIVERS table : list Warehouse.stored_row) (df : DataFrame)
  (rep : Warehouse.report) :
  Warehouse.upload_to_snowflake now GOLF_DRIVERS df = Some (table, rep) ->
  Warehouse.new_records rep = 0%nat.
Proof.
  unfold Warehouse.upload_to_snowflake.
  destruct (Warehouse.source_of_frame df) as [source|]; [|discriminate].
  destruct (Warehouse.merge_into now GOLF_DRIVERS source) as [t|] eqn:E;
    [|discriminate].
  intros [= <- <-]. cbn. now apply (count_new_after_merge now GOLF_DRIVERS).
Qed.

Lemma upload_never_reports_new_records_witness :
  Warehouse.new_records
    (Warehouse.mkReport
       (Warehouse.count_new sample_table sample_source)
       (Warehouse.count_updated sample_table sample_source)) = 0%nat.
Proof.
  apply (upload_never_reports_new_records 7 sample_target sample_table
           sample_frame).
  reflexivity.
Defined.

(** X2.  For a batch in which no identity comes twice, an upload that
    succeeds reports 0 new records and 0 updated records, whatever it
    inserted or changed. *)
Theorem upload_of_distinct_batch_reports_zero (now : Z)
  (GOLF_DRIVERS table : list Warehouse.stored_row) (df : DataFrame)
  (source : list Warehouse.source_row) (rep : Warehouse.report) :
  Warehouse.source_of_frame df = Some source ->
  NoDup (map Warehouse.s_DRIVER_ID source) ->
  Warehouse.upload_to_snowflake now GOLF_DRIVERS df = Some (table, rep) ->
  rep = Warehouse.mkReport 0 0.
Proof.
  intros Hsrc Hnd. unfold Warehouse.upload_to_snowflake. rewrite Hsrc.
  destruct (Warehouse.merge_into now GOLF_DRIVERS source) as [t|] eqn:E;
    [|discriminate].
  intros [= <- <-]. f_equal.
  - now apply (count_new_after_merge now GOLF_DRIVERS).
  - unfold Warehouse.count_updated.
    assert (Z0 : forall s, In s source ->
                 List.length
                   (filter (fun t0 => (Warehouse.on_key t0 s
                                       && Warehouse.sql_neq (Warehouse.PRICE t0)
                                            (Warehouse.s_PRICE s))%bool) t) = 0%nat).
    { intros s Hs. rewrite filter_none; [reflexivity|].
      intros t0 Ht0.
      destruct (Warehouse.on_key t0 s && Warehouse.sql_neq _ _)%bool eqn:B;
        [|reflexivity].
      exfalso.
      pose proof (candidates_after_merge now GOLF_DRIVERS t source t0 Hnd E Ht0)
        as C.
      assert (X : In s (Warehouse.update_candidates t0 source))
        by (apply filter_In; auto).
      rewrite C in X. exact X. }
    apply list_sum_zero. exact Z0.
Qed.

Lemma upload_of_distinct_batch_reports_zero_witness :
  Warehouse.mkReport
    (Warehouse.count_new sample_table sample_source)
    (Warehouse.count_updated sample_table sample_source)
  = Warehouse.mkReport 0 0.
Proof.
  apply (upload_of_distinct_batch_reports_zero 7 sample_target sample_table
           sample_frame sample_source).
  - reflexivity.
  - repeat constructor; cbn; intuition discriminate.
  - reflexivity.
Defined.

(** X3.  Merging again a batch without repeated identity changes nothing:
    the table that the first MERGE gave is the table that the second one
    gives, at any later time. *)
Theorem merge_twice_changes_nothing (now later : Z)
  (target table : list Warehouse.stored_row)
  (source : list Warehouse.source_row) :
  NoDup (map Warehouse.s_DRIVER_ID source) ->
  Warehouse.merge_into now target source = Some table ->
  Warehouse.merge_into later table source = Some table.
Proof.
  intros Hnd Hm.
  assert (Hc : forall t', In t' table ->
                          Warehouse.update_candidates t' source = []).
  { intros t' Ht'. now apply (candidates_after_merge now target table). }
  unfold Warehouse.merge_into.
  assert (E : existsb (Warehouse.ambiguous source) table = false).
  { destruct (existsb _ table) eqn:X; [|reflexivity].
    apply existsb_exists in X as (t' & Ht' & Ha).
    unfold Warehouse.ambiguous in Ha. now rewrite (Hc t' Ht') in Ha. }
  rewrite E. f_equal.
  rewrite (filter_none (Warehouse.unmatched table) source).
  - cbn [map]. rewrite app_nil_r. rewrite <- (map_id table) at 2.
    apply map_ext_in. intros t' Ht'. unfold Warehouse.merge_row.
    now rewrite (Hc t' Ht').
  - intros s Hs. now apply (merged_source_is_matched now target table source).
Qed.

Lemma merge_twice_changes_nothing_witness :
  Warehouse.merge_into 9 sample_table sample_source = Some sample_table.
Proof.
  apply (merge_twice_changes_nothing 7 9 sample_target).
  - repeat constructor; cbn; intuition discriminate.
  - reflexivity.
Defined.

(** Without the hypothesis the second MERGE may change the table: two
    records of one new identity with two prices are both inserted, and the
    second MERGE sets each row to the price of the other. *)
Example merge_twice_with_repeated_identity :
  let source := [incoming_club "a" (Some (Fin 100));
                 incoming_club "a" (Some (Fin 120))] in
  option_map (map Warehouse.PRICE) (Warehouse.merge_into 1 [] source)
  = Some [Some (Fin 100); Some (Fin 120)]
  /\ Warehouse.merge_into 2
       [Warehouse.inserted 1 (incoming_club "a" (Some (Fin 100)));
        Warehouse.inserted 1 (incoming_club "a" (Some (Fin 120)))] source
     = Some [Warehouse.updated 2
               (Warehouse.inserted 1 (incoming_club "a" (Some (Fin 100))))
               (incoming_club "a" (Some (Fin 120)));
             Warehouse.updated 2
               (Warehouse.inserted 1 (incoming_club "a" (Some (Fin 120))))
               (incoming_club "a" (Some (Fin 100)))].
Proof. split; reflexivity. Qed.

(** ** The fetchers *)

(** X4.  The dashboard does not retry an HTTP error other than 429: a reply
    with such a status is raised at once, after one request and the one
    delay slept before it. *)
Theorem dashboard_raises_http_error_at_once (url : string) (r : Response)
  (p : list outcome) (w : World) :
  draws_ok w ->
  pending w = Reply r :: p ->
  (400 <= status_code r < 600)%nat ->
  status_code r <> 429%nat ->
  Streamlit.make_request url w
  = (Raise (HTTPError (status_code r) (headers r)),
     mkWorld p (tl (draws w)) (requested w ++ [url])
             (slept w ++ [Qred (dash_delay 5 0 w)])).
Proof.
  intros Hd Hp Hs Hn.
  unfold Streamlit.make_request, Streamlit.make_request_with. cbn [seq].
  now apply (dash_attempt_http_error url 3 5 ltac:(lia) 0%nat).
Qed.

Lemma dashboard_raises_http_error_at_once_witness :
  Streamlit.make_request "u"
    (fresh_world [Reply (mkResponse 503 [] (Text "")); Reply ok_response] [1 # 2])
  = (Raise (HTTPError 503 []),
     mkWorld [Reply ok_response] [] ["u"] [7]).
Proof.
  apply (dashboard_raises_http_error_at_once "u" (mkResponse 503 [] (Text ""))
           [Reply ok_response]
           (fresh_world [Reply (mkResponse 503 [] (Text "")); Reply ok_response]
                        [1 # 2])).
  - repeat constructor; cbn; lra.
  - reflexivity.
  - cbn. lia.
  - discriminate.
Defined.

(** X5.  The sleeps of the script's fetch.  When fewer failures than the
    retry count come before a reply, it has slept 1, 2, 4, ... seconds, one
    power of two per failure, and then [SLEEP_TIME]; when as many failures as
    the retry count come, it raises the last one without sleeping after it.
    It draws no random number. *)
Theorem script_sleeps_powers_of_two (url : string) (retry_count : nat)
  (fs : list outcome) (rest : list outcome) (w : World) :
  forallb script_transient fs = true ->
  (forall r,
      (List.length fs < retry_count)%nat ->
      outcome_exn (Reply r) = None ->
      pending w = (fs ++ Reply r :: rest)%list ->
      Snowpark.make_request_with url retry_count w
      = (Ok (Some r),
         mkWorld rest (draws w)
           (requested w ++ repeat url (S (List.length fs)))
           (slept w
              ++ map (fun i => Qred (inject_Z (2 ^ Z.of_nat i)))
                     (seq 0 (List.length fs))
              ++ [Snowpark.SLEEP_TIME])))
  /\ (fs <> [] ->
      List.length fs = retry_count ->
      pending w = (fs ++ rest)%list ->
      exists e,
        outcome_exn (last fs NoReply) = Some e
        /\ Snowpark.make_request_with url retry_count w
           = (Raise e,
              mkWorld rest (draws w)
                (requested w ++ repeat url retry_count)
                (slept w
                   ++ map (fun i => Qred (inject_Z (2 ^ Z.of_nat i)))
                          (seq 0 (retry_count - 1))))).
Proof.
  intros Hfs. split.
  - intros r Hlen Hok Hp. unfold Snowpark.make_request_with.
    now apply script_loop_success.
  - intros Hne Hlen Hp. unfold Snowpark.make_request_with. subst retry_count.
    now apply script_loop_exhausted.
Qed.

Lemma script_sleeps_powers_of_two_witness :
  Snowpark.make_request_with "u" 4
    (fresh_world [NoReply; Reply (rate_limited (Some "30")); NoReply;
                  Reply ok_response] [])
  = (Ok (Some ok_response), mkWorld [] [] ["u"; "u"; "u"; "u"] [1; 2; 4; 2]).
Proof.
  apply (proj1 (script_sleeps_powers_of_two "u" 4
                  [NoReply; Reply (rate_limited (Some "30")); NoReply] []
                  (fresh_world [NoReply; Reply (rate_limited (Some "30")); NoReply;
                                Reply ok_response] []) eq_refl) ok_response).
  - cbn. lia.
  - reflexivity.
  - reflexivity.
Defined.



(** ** The normalizer *)

Section Symbols.
Import PyStr.

Lemma remove_char_twice (c : ascii) (s : string) :
  remove_char c (remove_char c s) = remove_char c s.
Proof.
  induction s as [|d s IH]; [reflexivity|]. cbn [remove_char].
  destruct (Ascii.eqb c d) eqn:E; [exact IH|].
  cbn [remove_char]. now rewrite E, IH.
Qed.

Lemma remove_char_swap (c d : ascii) (s : string) :
  remove_char c (remove_char d s) = remove_char d (remove_char c s).
Proof.
  induction s as [|x s IH]; [reflexivity|]. cbn [remove_char].
  destruct (Ascii.eqb d x) eqn:Ed, (Ascii.eqb c x) eqn:Ec; cbn [remove_char];
    rewrite ?Ed, ?Ec, ?IH; reflexivity.
Qed.

End Symbols.

(** X7.  The currency symbol and the thousands separator are ignored
    wherever they stand and however often: removing them beforehand, or
    adding one anywhere, does not change what [clean_price] returns. *)
Theorem clean_price_ignores_symbols (a b : string) :
  clean_price (PyStr.remove_char "$" a) = clean_price a
  /\ clean_price (PyStr.remove_char "," a) = clean_price a
  /\ clean_price (a ++ "$" ++ b) = clean_price (a ++ b)
  /\ clean_price (a ++ "," ++ b) = clean_price (a ++ b).
Proof.
  unfold clean_price. split; [|split; [|split]].
  - now rewrite remove_char_twice.
  - now rewrite (remove_char_swap "$" ","), remove_char_twice.
  - now rewrite !remove_char_app.
  - now rewrite !remove_char_app.
Qed.

(** X8.  Two records that differ get the same identity when an underscore
    of one field can be read as the separator: the brand [a_b] with the model
    [c] and the brand [a] with the model [b_c] collide, whatever the other
    fields. *)
Theorem identity_collides_across_separator (a b c : string) (r : df_row) :
  create_driver_id (with_brand_model (a ++ "_" ++ b) c r)
  = create_driver_id (with_brand_model a (b ++ "_" ++ c) r).
Proof.
  unfold create_driver_id, unique_string. cbn.
  now rewrite !append_assoc.
Qed.

(** ** The extractor *)

Section Dropped.



End Dropped.


(** ** The pagination loop, in any world *)

Section AnyWorld.
Variable fetch : string -> M (option Response).
Variable stop : nat -> bool.
Variable url_of : nat -> string.

(** One pass never raises and never loses a record. *)
Lemma visit_total (u : string) (products : list product_info) (w : World) :
  exists fl extra w',
    visit fetch u products w = (Ok (fl, (products ++ extra)%list), w').
Proof.
  unfold visit, try_catch, bind.
  destruct (fetch u w) as [[[r|]|e] w1].
  - destruct (Soup.find_all "li" "item product product-item" (page r))
      as [|el els].
    + exists Break, [], w1. cbn. now rewrite app_nil_r.
    + rewrite (extend_products_app BASE_URL (el :: els) products).
      destruct (Soup.find "a" "next" (page r)); eexists _, _, _; reflexivity.
  - exists Break, [], w1. cbn. now rewrite app_nil_r.
  - exists Break, [], w1. cbn. now rewrite app_nil_r.
Qed.

Lemma walk_never_raises (fuel : nat) :
  forall cp products w,
    exists r w', walk fetch stop url_of fuel cp products w = (Ok r, w').
Proof.
  induction fuel as [|fuel IH]; intros cp products w; cbn [walk];
    destruct (stop cp); try (eexists _, _; reflexivity).
  unfold bind.
  destruct (visit_total (url_of cp) products w) as (fl & extra & w1 & ->).
  destruct fl; [eexists _, _; reflexivity | apply IH].
Qed.

Lemma walk_total (fuel : nat) :
  forall k cp products w,
    (k <= fuel)%nat -> stop (cp + k) = true ->
    exists extra w',
      walk fetch stop url_of fuel cp products w
      = (Ok (Some (products ++ extra)%list), w').
Proof.
  induction fuel as [|fuel IH]; intros k cp products w Hk Hs; cbn [walk].
  - assert (k = 0%nat) by lia. subst. rewrite Nat.add_0_r in Hs. rewrite Hs.
    exists [], w. cbn. now rewrite app_nil_r.
  - destruct (stop cp) eqn:E.
    + exists [], w. cbn. now rewrite app_nil_r.
    + destruct k as [|k]; [rewrite Nat.add_0_r in Hs; congruence|].
      unfold bind.
      destruct (visit_total (url_of cp) products w) as (fl & extra & w1 & ->).
      destruct fl.
      * eexists _, _. reflexivity.
      * destruct (IH k (S cp) (products ++ extra)%list w1) as (ex & w2 & ->);
          [lia | now rewrite Nat.add_succ_comm |].
        exists (extra ++ ex)%list, w2. now rewrite app_assoc.
Qed.

End AnyWorld.

(** X10.  No exception leaves [scrape_products], whatever the server does
    and whatever the clock and the generator give.  With a limit of pages
    the loop ends within that many passes and returns a frame; the script
    without a limit may only fail to end. *)
Theorem scrape_products_never_raises (url : string) (w : World)
  (max_pages fuel : nat) :
  (max_pages <= fuel)%nat ->
  (exists products w',
      Streamlit.scrape_products fuel url max_pages w
      = (Ok (Some (finish_frame url products)), w'))
  /\ ((1 <= max_pages)%nat ->
      exists products w',
        Snowpark.scrape_products fuel url (Some max_pages) w
        = (Ok (Some (finish_frame url products)), w'))
  /\ (forall MAX_PAGES,
        exists r w', Snowpark.scrape_products fuel url MAX_PAGES w = (Ok r, w')).
Proof.
  intros Hf. split; [|split].
  - destruct (walk_total Streamlit.make_request
                (fun cp => negb (Nat.leb cp max_pages)) (Streamlit.page_url url)
                fuel max_pages 1 [] w Hf) as (extra & w' & Hw).
    { apply negb_true_iff, Nat.leb_gt. lia. }
    exists extra, w'. unfold Streamlit.scrape_products, bind.
    now rewrite dashboard_loop_is_walk, Hw.
  - intros H1.
    destruct (walk_total Snowpark._make_request
                (Snowpark.limit_reached (Some max_pages)) (Snowpark.page_url url)
                fuel max_pages 1 [] w Hf) as (extra & w' & Hw).
    { unfold Snowpark.limit_reached. destruct max_pages; [lia|].
      apply Nat.ltb_lt. lia. }
    exists extra, w'. unfold Snowpark.scrape_products, bind.
    now rewrite script_loop_is_walk, Hw.
  - intros MAX.
    destruct (walk_never_raises Snowpark._make_request
                (Snowpark.limit_reached MAX) (Snowpark.page_url url) fuel 1 [] w)
      as (r & w' & Hw).
    unfold Snowpark.scrape_products, bind.
    rewrite script_loop_is_walk, Hw. eexists _, _. reflexivity.
Qed.

Lemma scrape_products_never_raises_witness :
  exists products w',
    Streamlit.scrape_products 2 "u" 2
      (fresh_world [Reply (mkResponse 500 [] (Text "")); NoReply] [])
    = (Ok (Some (finish_frame "u" products)), w').
Proof.
  apply (proj1 (scrape_products_never_raises "u"
                  (fresh_world [Reply (mkResponse 500 [] (Text "")); NoReply] [])
                  2 2 (Nat.le_refl 2))).
Defined.

(** ** The frame *)


(** X12.  Rows that are already in order are left as they are by the sort;
    in particular sorting twice is sorting once. *)
Theorem sort_of_sorted_rows (l : list df_row) :
  StronglySorted (fun a b => row_leb a b = true) l ->
  stable_sort l = l.
Proof.
  induction 1 as [|r l Hs IH Hr]; [reflexivity|].
  cbn [stable_sort fold_right]. fold (stable_sort l). rewrite IH.
  destruct l as [|x l]; [reflexivity|]. cbn [insert_row_sorted].
  inversion Hr as [|? ? Hx _]; subst. now rewrite Hx.
Qed.

Lemma sort_of_sorted_rows_witness :
  stable_sort (stable_sort (rows sample_frame)) = stable_sort (rows sample_frame).
Proof.
  apply (sort_of_sorted_rows (stable_sort (rows sample_frame))).
  apply stable_sort_ordered.
Defined.

(** ** The requests of a run *)

Section Sends.
Variable P : string -> Prop.

Lemma sends_nothing {A : Type} (m : M A) :
  (forall w, requested (snd (m w)) = requested w
             /\ pending (snd (m w)) = pending w) ->
  sends P 0 m.
Proof.
  intros H w. exists []. destruct (H w) as [-> ->].
  rewrite app_nil_r. repeat split; constructor.
Qed.

Lemma sends_ret {A : Type} (a : A) : sends P 0 (ret a).
Proof. apply sends_nothing. intros w. split; reflexivity. Qed.

Lemma sends_raise {A : Type} (e : exn) : sends P 0 (@raise A e).
Proof. apply sends_nothing. intros w. split; reflexivity. Qed.

Lemma sends_sleep (secs : pyfloat) : sends P 0 (sleep secs).
Proof.
  apply sends_nothing. intros w. unfold sleep.
  destruct secs as [q| | |]; try (split; reflexivity).
  destruct (Qle_bool 0 q); split; reflexivity.
Qed.

Lemma sends_uniform (a b : Q) : sends P 0 (uniform a b).
Proof. apply sends_nothing. intros w. split; reflexivity. Qed.

Lemma sends_raise_for_status (r : Response) : sends P 0 (raise_for_status r).
Proof.
  unfold raise_for_status.
  destruct (Nat.leb 400 (status_code r) && Nat.ltb (status_code r) 600)%bool;
    [apply sends_raise | apply sends_ret].
Qed.

Lemma sends_get (url : string) : P url -> sends P 1 (session_get url).
Proof.
  intros HP w. exists [url]. unfold session_get.
  assert (E : tl (pending w) = skipn 1 (pending w)) by (destruct (pending w); reflexivity).
  destruct (pending w) as [|[r|] l]; cbn [snd requested pending List.length];
    repeat split; auto.
Qed.

Lemma sends_more {A : Type} (a b : nat) (m : M A) :
  (a <= b)%nat -> sends P a m -> sends P b m.
Proof.
  intros Hab H w. destruct (H w) as (l & Hl & HP & Hr & Hp).
  exists l. repeat split; auto. lia.
Qed.

Lemma sends_bind {A B : Type} (a b : nat) (m : M A) (k : A -> M B) :
  sends P a m -> (forall x, sends P b (k x)) -> sends P (a + b) (bind m k).
Proof.
  intros Hm Hk w. unfold bind.
  destruct (Hm w) as (l1 & Hl1 & HP1 & Hr1 & Hp1).
  destruct (m w) as [[x|e] w1]; cbn [snd] in *.
  - destruct (Hk x w1) as (l2 & Hl2 & HP2 & Hr2 & Hp2).
    exists (l1 ++ l2)%list. rewrite Hr2, Hp2, Hr1, Hp1, length_app.
    repeat split.
    + lia.
    + apply Forall_app; auto.
    + now rewrite app_assoc.
    + rewrite skipn_skipn. f_equal. lia.
  - exists l1. repeat split; auto. lia.
Qed.

Lemma sends_try {A : Type} (a b : nat) (m : M A) (h : exn -> M A) :
  sends P a m -> (forall e, sends P b (h e)) -> sends P (a + b) (try_catch m h).
Proof.
  intros Hm Hh w. unfold try_catch.
  destruct (Hm w) as (l1 & Hl1 & HP1 & Hr1 & Hp1).
  destruct (m w) as [[x|e] w1]; cbn [snd] in *.
  - exists l1. repeat split; auto. lia.
  - destruct (Hh e w1) as (l2 & Hl2 & HP2 & Hr2 & Hp2).
    exists (l1 ++ l2)%list. rewrite Hr2, Hp2, Hr1, Hp1, length_app.
    repeat split.
    + lia.
    + apply Forall_app; auto.
    + now rewrite app_assoc.
    + rewrite skipn_skipn. f_equal. lia.
Qed.

Lemma sends_where {A : Type} (Q' : string -> Prop) (k : nat) (m : M A) :
  (forall u, Q' u -> P u) -> sends Q' k m -> sends P k m.
Proof.
  intros HQ H w. destruct (H w) as (l & Hl & HP & Hr & Hp).
  exists l. repeat split; auto. revert HP. apply Forall_impl. exact HQ.
Qed.

End Sends.

(** The dashboard's fetch sends one request per attempt at most. *)
Lemma dashboard_loop_sends (url : string) (rc : nat) (base : Z)
  (attempts : list nat) :
  sends (eq url) (List.length attempts)
        (Streamlit.make_request_loop url rc base attempts).
Proof.
  induction attempts as [|attempt rest IH]; cbn [Streamlit.make_request_loop].
  - apply sends_ret.
  - cbn [List.length].
    apply (sends_bind (eq url) 0 (S (List.length rest))); [apply sends_uniform|].
    intros u.
    apply (sends_try (eq url) 1 (List.length rest)).
    + apply (sends_bind (eq url) 0 1); [apply sends_sleep|]. intros _.
      apply (sends_bind (eq url) 1 0); [now apply sends_get|]. intros r.
      apply (sends_bind (eq url) 0 0); [apply sends_raise_for_status|].
      intros _. apply sends_ret.
    + assert (R : forall e, sends (eq url) (List.length rest) (@raise (option Response) e)).
      { intros e. apply (sends_more (eq url) 0); [lia | apply sends_raise]. }
      intros [st hd| | |]; try apply R.
      * destruct (Nat.eqb st 429); [|apply R].
        apply (sends_bind (eq url) 0 (List.length rest)); [apply sends_sleep|].
        intros _. destruct (Nat.eqb attempt (rc - 1)); [apply R | apply IH].
      * destruct (Nat.eqb attempt (rc - 1)); [apply R|].
        apply (sends_bind (eq url) 0 (List.length rest)); [apply sends_uniform|].
        intros j.
        apply (sends_bind (eq url) 0 (List.length rest)); [apply sends_sleep|].
        intros _. apply IH.
Qed.

(** So does the script's. *)
Lemma script_loop_sends (url : string) (rc : nat) (attempts : list nat) :
  sends (eq url) (List.length attempts)
        (Snowpark.make_request_loop url rc attempts).
Proof.
  induction attempts as [|attempt rest IH]; cbn [Snowpark.make_request_loop].
  - apply sends_ret.
  - cbn [List.length].
    apply (sends_try (eq url) 1 (List.length rest)).
    + apply (sends_bind (eq url) 1 0); [now apply sends_get|]. intros r.
      apply (sends_bind (eq url) 0 0); [apply sends_raise_for_status|].
      intros _.
      apply (sends_bind (eq url) 0 0); [apply sends_sleep|].
      intros _. apply sends_ret.
    + assert (R : forall e, sends (eq url) (List.length rest) (@raise (option Response) e)).
      { intros e. apply (sends_more (eq url) 0); [lia | apply sends_raise]. }
      intros e. destruct (is_request_exception e); [|apply R].
      destruct (Nat.eqb attempt (rc - 1)); [apply R|].
      apply (sends_bind (eq url) 0 (List.length rest)); [apply sends_sleep|].
      intros _. apply IH.
Qed.

(** X13.  A fetch sends at most [retry_count] requests, all of them to the
    address it was given, whatever the replies, the clock and the generator;
    each request meets one pending outcome, so none is skipped. *)
Theorem fetch_sends_at_most_retry_count (url : string) (retry_count : nat)
  (base_delay : Z) (w : World) :
  (exists k,
      (k <= retry_count)%nat
      /\ requested (snd (Streamlit.make_request_with url retry_count base_delay w))
         = (requested w ++ repeat url k)%list
      /\ pending (snd (Streamlit.make_request_with url retry_count base_delay w))
         = skipn k (pending w))
  /\ (exists k,
      (k <= retry_count)%nat
      /\ requested (snd (Snowpark.make_request_with url retry_count w))
         = (requested w ++ repeat url k)%list
      /\ pending (snd (Snowpark.make_request_with url retry_count w))
         = skipn k (pending w)).
Proof.
  assert (R : forall l, Forall (eq url) l -> l = repeat url (List.length l)).
  { induction 1 as [|x l <- _ IH]; [reflexivity|]. cbn. now rewrite <- IH. }
  split.
  - destruct (dashboard_loop_sends url retry_count base_delay (seq 0 retry_count) w)
      as (l & Hl & HP & Hr & Hp).
    rewrite length_seq in Hl. exists (List.length l).
    unfold Streamlit.make_request_with. rewrite Hr, Hp, <- (R l HP). auto.
  - destruct (script_loop_sends url retry_count (seq 0 retry_count) w)
      as (l & Hl & HP & Hr & Hp).
    rewrite length_seq in Hl. exists (List.length l).
    unfold Snowpark.make_request_with. rewrite Hr, Hp, <- (R l HP). auto.
Qed.

Section RunSends.
Variable fetch : string -> M (option Response).
Variable stop : nat -> bool.
Variable url_of : nat -> string.
Variable tries : nat.
Hypothesis fetch_sends : forall u, sends (eq u) tries (fetch u).

Lemma visit_sends (u : string) (products : list product_info) :
  sends (eq u) tries (visit fetch u products).
Proof.
  unfold visit.
  apply (sends_more (eq u) (tries + 0 + 0)); [lia|].
  apply sends_try; [|intros _; apply sends_ret].
  apply sends_bind; [apply fetch_sends|].
  intros [r|]; [|apply sends_ret].
  destruct (Soup.find_all "li" "item product product-item" (page r));
    [apply sends_ret|].
  destruct (Soup.find "a" "next" (page r)); apply sends_ret.
Qed.

Lemma walk_sends (fuel : nat) :
  forall n cp products,
    (forall i, (cp + n <= i)%nat -> stop i = true) ->
    sends (fun u => exists i, (cp <= i < cp + n)%nat /\ u = url_of i)
          (tries * n) (walk fetch stop url_of fuel cp products).
Proof.
  induction fuel as [|fuel IH]; intros n cp products Hs; cbn [walk];
    destruct (stop cp) eqn:E;
    try (apply (sends_more _ 0); [lia | apply sends_ret]).
  destruct n as [|n]; [rewrite Hs in E by lia; discriminate|].
  apply (sends_more _ (tries + tries * n)); [lia|].
  apply sends_bind.
  - apply (sends_where _ (eq (url_of cp))); [|apply visit_sends].
    intros u <-. exists cp. split; [lia | reflexivity].
  - intros [[|] products'].
    + apply (sends_more _ 0); [lia | apply sends_ret].
    + apply (sends_where _
               (fun u => exists i, (S cp <= i < S cp + n)%nat /\ u = url_of i)).
      * intros u (i & Hi & ->). exists i. split; [lia | reflexivity].
      * apply IH. intros i Hi. apply Hs. lia.
Qed.

End RunSends.

(** X14.  A run with a limit of [max_pages] pages sends at most three
    requests per page, [3 * max_pages] in all, and only to the addresses of
    the pages 1 .. [max_pages]; this holds whatever the replies are. *)
Theorem run_sends_at_most_three_per_page (url : string) (max_pages fuel : nat)
  (w : World) :
  (exists l,
      (List.length l <= 3 * max_pages)%nat
      /\ Forall (fun u => exists i, (1 <= i <= max_pages)%nat
                                    /\ u = Streamlit.page_url url i) l
      /\ requested (snd (Streamlit.scrape_products fuel url max_pages w))
         = (requested w ++ l)%list)
  /\ (exists l,
      (List.length l <= 3 * S max_pages)%nat
      /\ Forall (fun u => exists i, (1 <= i <= S max_pages)%nat
                                    /\ u = Snowpark.page_url url i) l
      /\ requested (snd (Snowpark.scrape_products fuel url (Some (S max_pages)) w))
         = (requested w ++ l)%list).
Proof.
  split.
  - assert (S : sends (fun u => exists i, (1 <= i < 1 + max_pages)%nat
                                          /\ u = Streamlit.page_url url i)
                      (3 * max_pages + 0)
                      (Streamlit.scrape_products fuel url max_pages)).
    { unfold Streamlit.scrape_products. apply sends_bind.
      - intros w0. rewrite dashboard_loop_is_walk. revert w0.
        apply (walk_sends Streamlit.make_request _ _ 3).
        + intros u. apply (dashboard_loop_sends u 3 5 (seq 0 3)).
        + intros i Hi. apply negb_true_iff, Nat.leb_gt. lia.
      - intros r. apply sends_ret. }
    destruct (S w) as (l & Hl & HP & Hr & _). exists l.
    split; [lia|]. split; [|exact Hr].
    revert HP. apply Forall_impl. intros u (i & Hi & ->). exists i.
    split; [lia | reflexivity].
  - assert (S' : sends (fun u => exists i, (1 <= i < 1 + S max_pages)%nat
                                           /\ u = Snowpark.page_url url i)
                       (3 * S max_pages + 0)
                       (Snowpark.scrape_products fuel url (Some (S max_pages)))).
    { unfold Snowpark.scrape_products. apply sends_bind.
      - intros w0. rewrite script_loop_is_walk. revert w0.
        apply (walk_sends Snowpark._make_request _ _ 3).
        + intros u. apply (script_loop_sends u 3 (seq 0 3)).
        + intros i Hi. apply Nat.ltb_lt. lia.
      - intros r. apply sends_ret. }
    destruct (S' w) as (l & Hl & HP & Hr & _). exists l.
    split; [lia|]. split; [|exact Hr].
    revert HP. apply Forall_impl. intros u (i & Hi & ->). exists i.
    split; [lia | reflexivity].
Qed.

(** ** The addresses of the pages *)

Lemma str_of_nat_inj (a b : nat) : str_of_nat a = str_of_nat b -> a = b.
Proof.
  assert (N : forall n, Nat.to_uint n <> Decimal.Nil).
  { intros n. rewrite <- (DecimalNat.Unsigned.of_to n) at 1.
    rewrite DecimalNat.Unsigned.to_of. unfold Decimal.unorm.
    destruct (Decimal.nzhead (Nat.to_uint n)); discriminate. }
  unfold str_of_nat. intros E.
  apply DecimalNat.Unsigned.to_uint_inj.
  pose proof (DecimalString.NilZero.usu (Nat.to_uint a) (N a)) as Ha.
  pose proof (DecimalString.NilZero.usu (Nat.to_uint b) (N b)) as Hb.
  rewrite E, Hb in Ha. now injection Ha.
Qed.

Lemma append_cancel_l (s a b : string) : (s ++ a = s ++ b)%string -> a = b.
Proof.
  induction s as [|c s IH]; cbn; [auto|]. intros [= E]. auto.
Qed.

Lemma append_longer (s t : string) :
  t <> ""%string -> (s ++ t)%string <> s.
Proof.
  intros Ht E. apply (f_equal String.length) in E.
  rewrite length_append in E. destruct t; [congruence|]. cbn in E. lia.
Qed.

(** X15.  Two different pages never have the same address, in either
    program: page 1 is the bare catalogue address and every later page
    carries its own number. *)
Theorem page_url_injective (url : string) (i j : nat) :
  (1 <= i)%nat -> (1 <= j)%nat -> i <> j ->
  Streamlit.page_url url i <> Streamlit.page_url url j
  /\ Snowpark.page_url url i <> Snowpark.page_url url j.
Proof.
  intros Hi Hj Hij.
  assert (H : (if Nat.ltb 1 i then url ++ "?p=" ++ str_of_nat i else url)%string
              <> (if Nat.ltb 1 j then url ++ "?p=" ++ str_of_nat j else url)%string).
  { destruct (Nat.ltb 1 i) eqn:Ei, (Nat.ltb 1 j) eqn:Ej.
    - intros E. apply append_cancel_l in E.
      apply (append_cancel_l "?p=") in E.
      apply Hij. now apply str_of_nat_inj.
    - apply append_longer. discriminate.
    - intros E. symmetry in E. revert E. apply append_longer. discriminate.
    - apply Nat.ltb_ge in Ei, Ej. lia. }
  split; exact H.
Qed.

Lemma page_url_injective_witness :
  Streamlit.page_url "https://www.2ndswing.com/golf-clubs/drivers" 2
  <> Streamlit.page_url "https://www.2ndswing.com/golf-clubs/drivers" 12.
Proof.
  apply (proj1 (page_url_injective
                  "https://www.2ndswing.com/golf-clubs/drivers" 2 12
                  ltac:(lia) ltac:(lia) ltac:(lia))).
Defined.

(** ** From the run to the upload *)

Lemma source_of_tagged_rows (url : string) (l : list df_row) :
  Forall (fun r => SOURCE_URL r = Some url
                   /\ DRIVER_ID r = Some (create_driver_id r)) l ->
  exists source,
    Warehouse.source_of_rows l = Some source
    /\ List.length source = List.length l
    /\ Forall (fun s => Warehouse.s_SOURCE_URL s = url) source.
Proof.
  induction 1 as [|r l [Hu Hd] _ (source & Hs & Hlen & Hall)].
  - exists []. repeat split; constructor.
  - cbn [Warehouse.source_of_rows]. unfold Warehouse.source_of_row.
    rewrite Hu, Hd, Hs. eexists. split; [reflexivity|]. split.
    + cbn [List.length]. now rewrite Hlen.
    + constructor; [reflexivity | exact Hall].
Qed.

(** X16.  The script uploads the frame of every run.  The frame of a run
    that collected nothing has none of the columns the statements name, so
    the upload raises; the frame of any other run is loaded whole, one row
    of the temporary table per record and each with the catalogue address,
    and the upload goes through when no identity comes twice. *)
Theorem upload_after_a_run (url : string) (now : Z)
  (GOLF_DRIVERS : list Warehouse.stored_row) :
  Warehouse.upload_to_snowflake now GOLF_DRIVERS (finish_frame url []) = None
  /\ (forall p l,
        exists source,
          Warehouse.source_of_frame (finish_frame url (p :: l)) = Some source
          /\ List.length source = S (List.length l)
          /\ Forall (fun s => Warehouse.s_SOURCE_URL s = url) source
          /\ (NoDup (map Warehouse.s_DRIVER_ID source) ->
              Warehouse.upload_to_snowflake now GOLF_DRIVERS
                (finish_frame url (p :: l)) <> None)).
Proof.
  split; [reflexivity|]. intros p l.
  assert (HF : Forall (fun r => SOURCE_URL r = Some url
                                /\ DRIVER_ID r = Some (create_driver_id r))
                      (rows (finish_frame url (p :: l)))).
  { rewrite finish_frame_nonempty by discriminate.
    unfold sort_values. cbn [rows].
    apply (Permutation_Forall
             (Permutation_sym (stable_sort_perm (rows (tagged_frame url (p :: l)))))).
    rewrite rows_tagged. apply Forall_forall. intros r Hr.
    apply in_map_iff in Hr as (q & <- & _). split; reflexivity. }
  destruct (source_of_tagged_rows url _ HF) as (source & Hs & Hlen & Hall).
  assert (Hf : Warehouse.source_of_frame (finish_frame url (p :: l)) = Some source).
  { unfold Warehouse.source_of_frame.
    replace (columns (finish_frame url (p :: l)))
      with (product_keys ++ ["SOURCE_URL"; "DRIVER_ID"])%list by reflexivity.
    exact Hs. }
  exists source. split; [exact Hf|]. split.
  - rewrite Hlen.
    rewrite finish_frame_nonempty by discriminate.
    unfold sort_values. cbn [rows].
    rewrite (Permutation_length (stable_sort_perm _)), rows_tagged.
    apply length_map.
  - split; [exact Hall|]. intros Hnd.
    unfold Warehouse.upload_to_snowflake. rewrite Hf.
    pose proof (merge_into_accepts now GOLF_DRIVERS source Hnd) as Hm.
    destruct (Warehouse.merge_into now GOLF_DRIVERS source); [discriminate|].
    contradiction.
Qed.

Lemma upload_after_a_run_witness :
  Warehouse.upload_to_snowflake 0 [] (finish_frame "u" []) = None.
Proof.
  apply (proj1 (upload_after_a_run "u" 0 [])).
Defined.
